(** * Calculation-setup projections and the LCA orchestrator

    A shallow embedding of
    - [activity_browser/ui/tables/models/lca_setup.py]
      ([CSGenericModel], [CSActivityModel], [CSMethodsModel]) and
    - [activity_browser/bwutils/calculations.py] ([do_LCA_calculations]),
    with the properties of the calculation-setup synchronisation and of the
    calculation orchestration stated over it.

    Python objects are modelled by what the code reads and writes of them:
    a pandas frame is the list of its rows, a row the list of its cells in
    column order; a [dict] is an association list in insertion order; the
    stores ([cs_controller], [activity_controller], [bw.methods]) are finite
    maps; an instance of a model class is the record of its attributes.
    Methods are computations in a state-and-exception monad. *)

From Stdlib Require Import ZArith Floats String List.
From stdpp Require Import base option list gmap strings.
From Equations Require Import Equations.

Set Default Proof Using "Type".

(** ** Python values, exceptions and the monad of methods *)

Module Py.

(** The exception classes that the two modules raise, catch or let pass.
    [KeyError], [AssertionError], [TypeError] and [ValueError] carry
    [str(e)]; where pandas words the message of a [KeyError], a short
    form of it. *)
Inductive exn : Type :=
  | AssertionError (msg : string)
  | AttributeError
  | IndexError
  | KeyError (msg : string)
  | TypeError (msg : string)
  | ValueError (msg : string)
  | DoesNotExist
  | BW2CalcError (title detail : string)
  | CriticalCalculationError
  | ScenarioExchangeNotFoundError
  | Exception (cause : exn).

(** An activity key is the pair (database, code); a method reference is a
    tuple of strings. *)
Definition Key : Type := string * string.
Definition Method : Type := list string.

(** [repr] of a string and of a tuple of strings: [str(e)] of the
    [KeyError] that a mapping raises for a missing key is the [repr] of
    the key. The strings are taken to hold no quote, backslash or control
    character, which [repr] would escape. *)
Definition repr_str (s : string) : string := "'" +:+ s +:+ "'".
Definition repr_tuple (t : list string) : string :=
  match t with
  | [s] => "(" +:+ repr_str s +:+ ",)"
  | _ => "(" +:+ String.concat ", " (repr_str <$> t) +:+ ")"
  end.

(** The values that occur as cells and as dictionary values. *)
Inductive value : Type :=
  | VNone
  | VStr (s : string)
  | VFloat (f : float)
  | VInt (z : Z)
  | VKey (k : Key)
  | VMethod (m : Method).

(** [dict]: insertion-ordered, assignment to a present key keeps its place. *)
Definition dict : Type := list (string * value).

Fixpoint dict_get (d : dict) (k : string) : option value :=
  match d with
  | [] => None
  | (k', v) :: d' => if decide (k = k') then Some v else dict_get d' k
  end.

Fixpoint dict_set (d : dict) (k : string) (v : value) : dict :=
  match d with
  | [] => [(k, v)]
  | (k', v') :: d' =>
      if decide (k = k') then (k, v) :: d' else (k', v') :: dict_set d' k v
  end.

(** [d.update(e)] *)
Definition dict_update (d e : dict) : dict :=
  foldl (λ acc kv, dict_set acc kv.1 kv.2) d e.

(** Computations over a state [S] that return or raise. *)
Definition M (S A : Type) : Type := S → (exn + A) * S.

Definition ret {S A} (a : A) : M S A := λ s, (inr a, s).
Definition raise {S A} (e : exn) : M S A := λ s, (inl e, s).
Definition bind {S A B} (m : M S A) (k : A → M S B) : M S B :=
  λ s, match m s with
       | (inr a, s') => k a s'
       | (inl e, s') => (inl e, s')
       end.
Definition gets {S A} (f : S → A) : M S A := λ s, (inr (f s), s).
Definition modify {S} (f : S → S) : M S unit := λ s, (inr tt, f s).
(** [lift r]: the outcome of a pure operation that may raise. *)
Definition lift {S A} (r : exn + A) : M S A := λ s, (r, s).
(** [try: m except handles: h] *)
Definition try_except {S A} (m : M S A) (handles : exn → bool)
    (h : exn → M S A) : M S A :=
  λ s, match m s with
       | (inl e, s') => if handles e then h e s' else (inl e, s')
       | r => r
       end.

(** [for x in xs: body x] *)
Fixpoint for_each {S A} (xs : list A) (body : A → M S unit) : M S unit :=
  match xs with
  | [] => ret tt
  | x :: xs' => bind (body x) (λ _, for_each xs' body)
  end.

(** [[f x for x in xs]] *)
Fixpoint list_comp {S A B} (xs : list A) (f : A → M S B) : M S (list B) :=
  match xs with
  | [] => ret []
  | x :: xs' => bind (f x) (λ y, bind (list_comp xs' f) (λ ys, ret (y :: ys)))
  end.

#[global] Instance M_ret {S} : MRet (M S) := λ A, ret.
#[global] Instance M_bind {S} : MBind (M S) := λ A B k m, bind m k.

End Py.
Import Py.

(** ** pandas and numpy, as far as the models use them *)

Module Pandas.

Definition Row : Type := list value.
Definition DataFrame : Type := list Row.

(** A cell counts as missing when it is [None] or a NaN. *)
Definition isna (v : value) : bool :=
  match v with
  | VNone => true
  | VFloat f => PrimFloat.is_nan f
  | _ => false
  end.

(** [pd.DataFrame(records, columns=columns)]: a key that a record lacks
    gives NaN in its column. *)
Definition row_of_record (columns : list string) (d : dict) : Row :=
  (λ c, default (VFloat nan) (dict_get d c)) <$> columns.

Definition from_records (records : list dict) (columns : list string) : DataFrame :=
  row_of_record columns <$> records.

(** [df.dropna().reset_index(drop=True)]: rows with a missing cell go. *)
Definition dropna (df : DataFrame) : DataFrame :=
  List.filter (λ r, forallb (λ v, negb (isna v)) r) df.

(** [columns.get_loc(name)] *)
Fixpoint get_loc (columns : list string) (name : string) : exn + nat :=
  match columns with
  | [] => inl (KeyError (repr_str name))
  | c :: cs =>
      if decide (name = c) then inr 0
      else match get_loc cs name with inr i => inr (S i) | inl e => inl e end
  end.

(** The cells of the column at position [c]. *)
Definition cells (c : nat) (df : DataFrame) : list value :=
  (λ r : Row, default (VFloat nan) (r !! c)) <$> df.

(** [df.loc[:, name]] for a frame with the given columns. *)
Definition column (columns : list string) (name : string) (df : DataFrame) : exn + list value :=
  match get_loc columns name with
  | inr c => inr (cells c df)
  | inl e => inl e
  end.

Section Positional.
Context {A : Type}.

(** [df.iloc[i]]: positions from [-n] to [n-1]. *)
Definition iloc (df : list A) (i : Z) : exn + A :=
  let n := Z.of_nat (length df) in
  if bool_decide (- n ≤ i < n)%Z then
    match df !! Z.to_nat (if bool_decide (i < 0)%Z then i + n else i)%Z with
    | Some r => inr r
    | None => inl IndexError
    end
  else inl IndexError.

(** [df.drop(label, axis=0).reset_index(drop=True)] on a frame whose index
    is [0 .. n-1]: an absent label is a [KeyError]. *)
Definition drop_label (df : list A) (label : Z) : exn + list A :=
  if bool_decide (0 ≤ label < Z.of_nat (length df))%Z
  then inr (delete (Z.to_nat label) df)
  else inl (KeyError "not found in axis").

(** [np.insert(df.values, obj, values=row, axis=0)]: [obj] from [-n] to [n],
    a negative one counted from the end. *)
Definition np_insert (arr : list A) (obj : Z) (values : A) : exn + list A :=
  let n := Z.of_nat (length arr) in
  if bool_decide (- n ≤ obj ≤ n)%Z then
    let i := Z.to_nat (if bool_decide (obj < 0)%Z then obj + n else obj)%Z in
    inr (take i arr ++ values :: drop i arr)
  else inl IndexError.

(** [df.drop(labels, axis=0).reset_index(drop=True)] for a list of labels
    on a frame whose index is [0 .. n-1]: the rows whose position is among
    the labels go, and a label outside the index is a [KeyError].
    [kept_from i labels df] are the rows that stay, [i] being the position
    of the first row of [df]. *)
Fixpoint kept_from (i : nat) (labels : list Z) (df : list A) : list A :=
  match df with
  | [] => []
  | r :: df' =>
      if bool_decide (Z.of_nat i ∈ labels)
      then kept_from (S i) labels df'
      else r :: kept_from (S i) labels df'
  end.

Definition drop_labels (df : list A) (labels : list Z) : exn + list A :=
  if forallb (λ l, bool_decide (0 ≤ l < Z.of_nat (length df))%Z) labels
  then inr (kept_from 0 labels df)
  else inl (KeyError "not found in axis").

End Positional.

(** [df.at[row, column]] for the column at position [c]: the label [row]
    must be in the index [0 .. n-1]. *)
Definition at_cell {A} (df : list (list A)) (row : Z) (c : nat) (missing : A) : exn + A :=
  if bool_decide (0 ≤ row < Z.of_nat (length df))%Z
  then inr (default missing (df !! Z.to_nat row ≫= (.!! c)))
  else inl (KeyError "row").

(** [df.iat[row, c]]: positions, a negative row counted from the end. *)
Definition iat {A} (df : list (list A)) (row : Z) (c : nat) : exn + A :=
  match iloc df row with
  | inr r => match r !! c with
             | Some v => inr v
             | None => inl IndexError
             end
  | inl e => inl e
  end.

End Pandas.
Import Pandas.

(** ** The environment of the table models *)

(** Modelled from the spec: the records kept by the Calculation-Setup Store,
    [cs_controller], which lives outside the sources at hand. A setup is
    {name, inv, ia}: the name is its key in the store, [inv] the functional
    units and [ia] the method references. A functional unit is a [dict] from
    activity keys to amounts (one entry, by the data model; the code reads
    whatever entries it has). *)
Definition FunctionalUnit : Type := list (Key * float).

Record CalculationSetup : Type := mkCS {
  inv : list FunctionalUnit;
  ia : list Method;
}.

(** An activity of the registry, as the [dict] of its fields that
    [act.get(field, default)] reads. *)
Definition Activity : Type := gmap string value.

(** The metadata [bw.methods] holds for a method. *)
Definition MethodMeta : Type := gmap string value.

Inductive signal : Type :=
  | updated
  | calculation_setup_changed.

(** The module-level objects the models talk to, the signals and log lines
    they have produced, and the attributes of the model instance [self].
    [connections] lists the activities whose [changed] signal is connected
    to [self.sync], one entry per connection. *)
Record State : Type := mkState {
  cs_controller : gmap string CalculationSetup;
  activity_controller : gmap Key Activity;
  bw_methods : gmap Method MethodMeta;
  emitted : list signal;
  logged : list string;
  connections : list Key;
  _dataframe : option DataFrame;
  current_cs : option string;
  key_col : nat;
  _activities : list Key;
}.

Definition set_cs_controller (c : gmap string CalculationSetup) (s : State) : State :=
  mkState c (activity_controller s) (bw_methods s) (emitted s) (logged s)
    (connections s) (_dataframe s) (current_cs s) (key_col s) (_activities s).
Definition set_emitted (e : list signal) (s : State) : State :=
  mkState (cs_controller s) (activity_controller s) (bw_methods s) e (logged s)
    (connections s) (_dataframe s) (current_cs s) (key_col s) (_activities s).
Definition set_logged (l : list string) (s : State) : State :=
  mkState (cs_controller s) (activity_controller s) (bw_methods s) (emitted s) l
    (connections s) (_dataframe s) (current_cs s) (key_col s) (_activities s).
Definition set_connections (c : list Key) (s : State) : State :=
  mkState (cs_controller s) (activity_controller s) (bw_methods s) (emitted s)
    (logged s) c (_dataframe s) (current_cs s) (key_col s) (_activities s).
Definition set_dataframe (d : option DataFrame) (s : State) : State :=
  mkState (cs_controller s) (activity_controller s) (bw_methods s) (emitted s)
    (logged s) (connections s) d (current_cs s) (key_col s) (_activities s).
Definition set_current_cs (c : option string) (s : State) : State :=
  mkState (cs_controller s) (activity_controller s) (bw_methods s) (emitted s)
    (logged s) (connections s) (_dataframe s) c (key_col s) (_activities s).
Definition set_key_col (k : nat) (s : State) : State :=
  mkState (cs_controller s) (activity_controller s) (bw_methods s) (emitted s)
    (logged s) (connections s) (_dataframe s) (current_cs s) k (_activities s).
Definition set_activities (a : list Key) (s : State) : State :=
  mkState (cs_controller s) (activity_controller s) (bw_methods s) (emitted s)
    (logged s) (connections s) (_dataframe s) (current_cs s) (key_col s) a.

(** [signal.disconnect(slot)] on the list of connections: one connection
    of the activity goes. *)
Fixpoint disconnect (act : Key) (conns : list Key) : list Key :=
  match conns with
  | [] => []
  | c :: cs => if decide (c = act) then cs else c :: disconnect act cs
  end.

(** [signal.emit()] *)
Definition emit (sg : signal) : M State unit :=
  modify (λ s, set_emitted (emitted s ++ [sg]) s).

(** [log.error(msg)] *)
Definition log_error (msg : string) : M State unit :=
  modify (λ s, set_logged (logged s ++ [msg]) s).

(** [self._dataframe], for an attribute access on it: before a frame is
    set the attribute is [None]. *)
Definition the_dataframe : M State DataFrame :=
  d ← gets _dataframe;
  match d with
  | Some df => mret df
  | None => raise AttributeError
  end.

(** ** [CSGenericModel] *)

Module CSGenericModel.

(** [relocateRow(self, row_source, row_target)]. The calls [beginMoveRows]
    and [endMoveRows] tell the views of the move and leave the frame alone. *)
Definition relocateRow (row_source row_target : Z) : M State unit :=
  df ← the_dataframe;
  data_source ← lift (iloc df row_source);
  (if bool_decide (row_source > row_target)%Z then
     df1 ← lift (drop_label df row_source);
     modify (set_dataframe (Some df1));;
     df2 ← lift (np_insert df1 row_target data_source);
     modify (set_dataframe (Some df2))
   else if bool_decide (row_source < row_target)%Z then
     df1 ← lift (np_insert df row_target data_source);
     modify (set_dataframe (Some df1));;
     df2 ← lift (drop_label df1 row_source);
     modify (set_dataframe (Some df2))
   else mret tt);;
  emit updated;;
  emit calculation_setup_changed.

End CSGenericModel.

(** ** [CSActivityModel] *)

Module CSActivityModel.

Definition HEADERS : list string :=
  ["Amount"; "Unit"; "Product"; "Activity"; "Location"; "Database"] ++ ["key"].

(** [str(key)] of a key and of [self.current_cs], for the log line. *)
Definition str_key (k : Key) : string :=
  "('" +:+ k.1 +:+ "', '" +:+ k.2 +:+ "')".
Definition str_opt (o : option string) : string := default "None" o.

(** Truth value of [self.current_cs]: [None] and the empty string are false. *)
Definition truthy (o : option string) : bool :=
  match o with
  | Some s => negb (bool_decide (s = ""))
  | None => false
  end.

(** [act.get("type", "process") != "process"] *)
Definition not_process (act : Activity) : bool :=
  match default (VStr "process") (act !! "type") with
  | VStr t => negb (bool_decide (t = "process"))
  | _ => true
  end.

Section WithNames.

(** The table [bc.AB_names_to_bw_keys] of [bwutils.commontasks] maps a
    column header to the activity field shown in it. The module is outside
    the sources at hand; the table is a parameter here, defined on every
    header of the model. *)
Variable AB_names_to_bw_keys : string → string.

(** [build_row(self, key, amount)]: the row of a key that resolves to a
    process, the empty [dict] and a log line otherwise. *)
Definition build_row (key : Key) (amount : float) : M State dict :=
  try_except
    (reg ← gets activity_controller;
     act ← match reg !! key with
           | Some a => mret a
           | None => raise DoesNotExist
           end;
     (if not_process act
      then raise (A:=unit) (TypeError "Activity is not of type 'process'")
      else mret tt);;
     let row : dict :=
       (λ h, (h, default (VStr "") (act !! AB_names_to_bw_keys h)))
         <$> take (length HEADERS - 1) HEADERS in
     let row := dict_update row [("Amount", VFloat amount); ("key", VKey key)] in
     modify (λ s, set_connections (connections s ++ [key]) s);;
     modify (λ s, set_activities (_activities s ++ [key]) s);;
     mret row)
    (λ e, match e with TypeError _ | DoesNotExist => true | _ => false end)
    (λ _, cur ← gets current_cs;
          log_error ("Could not load key '" +:+ str_key key +:+
                     "' in Calculation Setup '" +:+ str_opt cur +:+ "'");;
          mret []).

(** [sync(self)] *)
Definition sync : M State unit :=
  cur ← gets current_cs;
  (if truthy cur then mret tt
   else raise (A:=unit) (AssertionError "CS Model not yet loaded"));;
  store ← gets cs_controller;
  let fus := match cur ≫= (store !!.) with Some cs => inv cs | None => [] end in
  rows ← list_comp (concat fus) (λ ka, build_row ka.1 ka.2);
  let df := from_records rows HEADERS in
  modify (set_dataframe (Some (dropna df)));;
  loc ← lift (get_loc HEADERS "key");
  modify (set_key_col loc);;
  emit updated.

(** [load(self, name)] *)
Definition load (name : string) : M State unit :=
  store ← gets cs_controller;
  (if bool_decide (is_Some (store !! name)) then mret tt
   else raise (A:=unit) (AssertionError "Given calculation setup does not exist."));;
  acts ← gets _activities;
  for_each acts (λ act,
    modify (λ s, set_connections (disconnect act (connections s)) s));;
  modify (set_activities []);;
  modify (set_current_cs (Some name));;
  sync.

(** [existing.isdisjoint(fu)]: no key of [fu] is a cell of the key column. *)
Definition isdisjoint (existing : list value) (fu : FunctionalUnit) : bool :=
  forallb (λ ka : Key * float,
             negb (existsb (λ v, match v with
                                 | VKey k => bool_decide (k = ka.1)
                                 | _ => false
                                 end) existing)) fu.

(** [include_activities(self, new_activities)]. The frame of the new rows
    has no column outside [HEADERS], so the concatenation has the columns
    of [self._dataframe]. *)
Definition include_activities (new_activities : list FunctionalUnit) : M State unit :=
  df ← the_dataframe;
  existing ← lift (column HEADERS "key" df);
  data ← list_comp (List.filter (isdisjoint existing) new_activities)
    (λ fu, match fu with
           | (k0, v0) :: _ => build_row k0 v0
           | [] => raise (ValueError "not enough values to unpack (expected 2, got 0)")
           end);
  match data with
  | [] => mret tt
  | _ :: _ =>
      modify (set_dataframe (Some (df ++ from_records data HEADERS)));;
      emit updated;;
      emit calculation_setup_changed
  end.


(** *** What the projection is meant to show

    The vocabulary of the specification, to compare the methods with. *)

(** The entity a key resolves to: an activity of the registry whose kind
    is "process" (the kind of an activity that names none). *)
Definition resolve (reg : gmap Key Activity) (key : Key) : option Activity :=
  match reg !! key with
  | Some act => if not_process act then None else Some act
  | None => None
  end.

(** The row of a functional unit whose key resolves to [act]. *)
Definition shown_row (act : Activity) (key : Key) (amount : float) : Row :=
  let field h := default (VStr "") (act !! AB_names_to_bw_keys h) in
  [VFloat amount; field "Unit"; field "Product"; field "Activity";
   field "Location"; field "Database"; VKey key].

(** The row of a record without any of the columns. *)
Definition missing_row : Row := replicate (length HEADERS) (VFloat nan).

(** The row that a frame built from [build_row(key, amount)] has. *)
Definition row_for (reg : gmap Key Activity) (ka : Key * float) : Row :=
  match resolve reg ka.1 with
  | Some act => shown_row act ka.1 ka.2
  | None => missing_row
  end.

(** The rows of the functional units that resolve, in their order. *)
Definition resolved_rows (reg : gmap Key Activity) (items : list (Key * float)) : list Row :=
  omap (λ ka, (λ act, shown_row act ka.1 ka.2) <$> resolve reg ka.1) items.

Definition log_line (cur : option string) (key : Key) : string :=
  "Could not load key '" +:+ str_key key +:+
  "' in Calculation Setup '" +:+ str_opt cur +:+ "'".

(** What a run of [build_row] over [items] leaves behind: a log line for
    each key that does not resolve, a connection and an entry of
    [_activities] for each that does. *)
Definition resolving (reg : gmap Key Activity) (items : list (Key * float)) : list Key :=
  omap (λ ka, (λ _, ka.1) <$> resolve reg ka.1) items.
Definition failing (reg : gmap Key Activity) (items : list (Key * float)) : list Key :=
  omap (λ ka, match resolve reg ka.1 with Some _ => None | None => Some ka.1 end) items.

Definition after_rows (items : list (Key * float)) (s : State) : State :=
  let reg := activity_controller s in
  set_activities (_activities s ++ resolving reg items)
    (set_connections (connections s ++ resolving reg items)
       (set_logged (logged s ++ (log_line (current_cs s) <$> failing reg items)) s)).

(** The key column shows [key]. *)
Definition shows_key (df : DataFrame) (key : Key) : bool :=
  existsb (λ v, match v with
                | VKey k => bool_decide (k = key)
                | _ => false
                end) (cells 6 df).

End WithNames.

(** [get_key(self, proxy)], given the source row of the proxy. *)
Definition get_key (row : Z) : M State value :=
  df ← the_dataframe;
  col ← gets key_col;
  lift (iat df row col).

(** [delete_rows(self, proxies)], from the set [rows] on: [rows] lists the
    elements of that set, each once, in the order in which the set is
    iterated; a list that names a row twice stands for no set. The
    registry is asked for the activity of each key cell; a cell that
    holds no key (the rows that [include_activities] adds for keys that
    do not resolve) cannot be looked up. *)
Definition delete_rows (rows : list Z) : M State unit :=
  df ← the_dataframe;
  keys ← list_comp rows (λ row, lift (at_cell df row 6 (VFloat nan)));
  for_each keys (λ key,
    reg ← gets activity_controller;
    match key with
    | VKey k =>
        match reg !! k with
        | Some _ => modify (λ s, set_connections (disconnect k (connections s)) s)
        | None => raise DoesNotExist
        end
    | _ => raise (TypeError "not a key")
    end);;
  df' ← lift (drop_labels df rows);
  modify (set_dataframe (Some df'));;
  emit updated;;
  emit calculation_setup_changed.

(** The functional units whose key resolves, in their order. *)
Definition resolved_units (reg : gmap Key Activity) (items : list (Key * float))
    : list (Key * float) :=
  List.filter (λ ka, bool_decide (is_Some (resolve reg ka.1))) items.

End CSActivityModel.

(** ** [CSMethodsModel] *)

Module CSMethodsModel.

Definition HEADERS : list string := ["Name"; "Unit"; "# CFs"; "method"].

(** [method in bw.methods] *)
Definition in_methods (catalog : gmap Method MethodMeta) (m : Method) : bool :=
  bool_decide (is_Some (catalog !! m)).

(** The loop of [filter_methods(cs)], from index [i] on: while [i < len(cs)],
    either [cs.pop(i)] or [i += 1]. The result is the list [cs] has become
    when the loop ends. *)
Equations? filter_methods_from (catalog : gmap Method MethodMeta)
    (cs : list Method) (i : nat) : list Method by wf (length cs - i) lt :=
  filter_methods_from catalog cs i with decide (i < length cs) := {
    | left Hlt =>
        if in_methods catalog (cs !!! i)
        then filter_methods_from catalog cs (S i)
        else filter_methods_from catalog (delete i cs) i
    | right _ => cs }.
Proof.
  - lia.
  - rewrite length_delete; [lia|]. by apply lookup_lt_is_Some_2.
Qed.

Definition filter_methods (catalog : gmap Method MethodMeta) (cs : list Method) : list Method :=
  filter_methods_from catalog cs 0.

(** [build_row(method)] *)
Definition build_row (method : Method) : M State dict :=
  catalog ← gets bw_methods;
  method_metadata ← match catalog !! method with
                    | Some md => mret md
                    | None => raise (KeyError (repr_tuple method))
                    end;
  mret [("Name", VStr (String.concat ", " method));
        ("Unit", default (VStr "Unknown") (method_metadata !! "unit"));
        ("# CFs", default (VInt 0) (method_metadata !! "num_cfs"));
        ("method", VMethod method)].

(** [sync(self, name=None)] *)
Definition sync (name : option string) : M State unit :=
  (if CSActivityModel.truthy name then
     store ← gets cs_controller;
     match name ≫= (store !!.) with
     | None => raise (AssertionError "Given calculation setup does not exist.")
     | Some cs =>
         modify (set_current_cs name);;
         rows ← list_comp (ia cs) build_row;
         modify (set_dataframe (Some (from_records rows HEADERS)))
     end
   else mret tt);;
  emit updated.

(** [filter_methods(cs['ia'])] on the setup stored under [name]: the list is
    the store's own, so the store sees what the loop removes. *)
Definition filter_stored (name : string) (cs : CalculationSetup) : M State unit :=
  catalog ← gets bw_methods;
  modify (λ s, set_cs_controller
                 (<[name := mkCS (inv cs) (filter_methods catalog (ia cs))]> (cs_controller s)) s).

(** The store after one step of the sweep over its items. *)
Definition swept (catalog : gmap Method MethodMeta) (st : gmap string CalculationSetup)
    (item : string * CalculationSetup) : gmap string CalculationSetup :=
  <[item.1 := mkCS (inv item.2) (filter_methods catalog (ia item.2))]> st.

(** [update_cs(self, name=None)]. The store is keyed by setup names, so
    [cs_controller[None]] is a [KeyError]. *)
Definition update_cs (name : option string) : M State unit :=
  cur ← gets current_cs;
  if bool_decide (is_Some cur) || bool_decide (is_Some name) then
    modify (set_current_cs name);;
    cur ← gets current_cs;
    store ← gets cs_controller;
    match cur with
    | None => raise (KeyError "None")
    | Some n =>
        match store !! n with
        | None => raise (KeyError (repr_str n))
        | Some cs => filter_stored n cs;; sync cur
        end
    end
  else
    store ← gets cs_controller;
    for_each (map_to_list store) (λ item, filter_stored item.1 item.2);;
    sync None.

(** The property [methods]. *)
Definition methods (s : State) : list value :=
  match _dataframe s with
  | None => []
  | Some df => cells 3 df
  end.

(** [delete_rows(self, proxies)], given the source rows of the proxies
    (the mapping of a proxy index to its source index belongs to the base
    class, outside the sources at hand). *)
Definition delete_rows (rows : list Z) : M State unit :=
  df ← the_dataframe;
  df' ← lift (drop_labels df rows);
  modify (set_dataframe (Some df'));;
  emit updated;;
  emit calculation_setup_changed.

(** [m in old_methods], the set of the cells of the method column. *)
Definition shows_method (old_methods : list value) (m : Method) : bool :=
  existsb (λ v, match v with
                | VMethod m' => bool_decide (m' = m)
                | _ => false
                end) old_methods.

(** [include_methods(self, new_methods)]. [pd.concat] leaves out a frame
    that is [None], and the frame of the new rows has the columns
    [HEADERS] in their order. *)
Definition include_methods (new_methods : list Method) : M State unit :=
  old_methods ← gets methods;
  data ← list_comp (List.filter (λ m, negb (shows_method old_methods m)) new_methods)
                   build_row;
  match data with
  | [] => mret tt
  | _ :: _ =>
      d ← gets _dataframe;
      modify (set_dataframe (Some (default [] d ++ from_records data HEADERS)));;
      emit updated;;
      emit calculation_setup_changed
  end.

(** The row of a method that the catalog has. *)
Definition method_row (catalog : gmap Method MethodMeta) (m : Method) : Row :=
  let md := default ∅ (catalog !! m) in
  [VStr (String.concat ", " m);
   default (VStr "Unknown") (md !! "unit");
   default (VInt 0) (md !! "num_cfs");
   VMethod m].

End CSMethodsModel.

(** ** [do_LCA_calculations] *)

Module Calculations.

Section Engines.

(** The engines are collaborators from outside this module: the multi-LCA
    object, its contribution analysis, the Monte-Carlo companion and the
    scenario table are opaque, and so is what building or computing them
    does; each either returns or raises. *)
Variables MLCA_t Contributions_t MonteCarlo_t ScenarioData : Type.
Variable MLCA : string → exn + MLCA_t.
Variable Contributions : MLCA_t → exn + Contributions_t.
Variable SuperstructureMLCA : string → option ScenarioData → exn + MLCA_t.
Variable SuperstructureContributions : MLCA_t → exn + Contributions_t.
(** [mlca.calculate()]: the object after the compute step. *)
Variable calculate : MLCA_t → exn + MLCA_t.
Variable MonteCarloLCA : FunctionalUnit → list Method → exn + MonteCarlo_t.

(** What the orchestrator does to the outside, in order. *)
Inductive call : Type :=
  | new_MLCA (cs_name : string)
  | new_Contributions
  | new_SuperstructureMLCA (cs_name : string)
  | new_SuperstructureContributions
  | mlca_calculate
  | new_MonteCarloLCA (demand : FunctionalUnit) (lcia_methods : list Method)
  | mc_calculate
  | restoreOverrideCursor
  | log_error (msg : string).

Record World : Type := mkWorld {
  calculation_setups : gmap string CalculationSetup;
  calls : list call;
}.

Definition did (c : call) : M World unit :=
  modify (λ w, mkWorld (calculation_setups w) (calls w ++ [c])).

(** The argument [data: dict], by the three keys that are read. *)
Record Data : Type := mkData {
  data_cs_name : option string;
  data_calculation_type : option string;
  data_data : option ScenarioData;
}.

(** [bd.calculation_setups[cs_name]] *)
Definition setup_getitem (cs_name : string) : M World CalculationSetup :=
  store ← gets calculation_setups;
  match store !! cs_name with
  | Some cs => mret cs
  | None => raise (KeyError (repr_str cs_name))
  end.

Definition do_LCA_calculations (data : Data)
    : M World (MLCA_t * Contributions_t * MonteCarlo_t) :=
  let cs_name := default "new calculation" (data_cs_name data) in
  let calculation_type := default "simple" (data_calculation_type data) in
  '(mlca, contributions) ←
    (if bool_decide (calculation_type = "simple") then
       try_except
         (did (new_MLCA cs_name);;
          mlca ← lift (MLCA cs_name);
          did new_Contributions;;
          contributions ← lift (Contributions mlca);
          mret (mlca, contributions))
         (λ e, match e with KeyError _ => true | _ => false end)
         (λ e, match e with
               | KeyError msg => raise (BW2CalcError "LCA Failed" msg)
               | _ => raise e
               end)
     else if bool_decide (calculation_type = "scenario") then
       try_except
         (let df := data_data data in
          did (new_SuperstructureMLCA cs_name);;
          mlca ← lift (SuperstructureMLCA cs_name df);
          did new_SuperstructureContributions;;
          contributions ← lift (SuperstructureContributions mlca);
          mret (mlca, contributions))
         (λ e, match e with
               | AssertionError _ | ValueError _ | KeyError _
               | CriticalCalculationError | ScenarioExchangeNotFoundError => true
               | _ => false
               end)
         (λ e, did restoreOverrideCursor;;
               match e with
               | AssertionError msg => raise (BW2CalcError "Scenario LCA failed." msg)
               | ValueError _ =>
                   raise (BW2CalcError "Scenario LCA failed."
                     "Constructed LCA matrix does not contain any exchanges from the superstructure")
               | KeyError msg => raise (BW2CalcError "LCA Failed" msg)
               | CriticalCalculationError => raise (Exception e)
               | ScenarioExchangeNotFoundError => raise CriticalCalculationError
               | _ => raise e
               end)
     else
       did (log_error ("Calculation type must be: simple or scenario. Given: " +:+ cs_name));;
       raise (ValueError ""));
  did mlca_calculate;;
  mlca ← lift (calculate mlca);
  cs ← setup_getitem cs_name;
  demand ← match inv cs with
           | fu :: _ => mret fu
           | [] => raise IndexError
           end;
  let methods := ia cs in
  did (new_MonteCarloLCA demand methods);;
  mc ← lift (MonteCarloLCA demand methods);
  mret (mlca, contributions, mc).

(** Engine construction for the mode of [data] has returned [mlca] and
    [contributions]. *)
Definition constructed (data : Data) (mlca : MLCA_t) (contributions : Contributions_t) : Prop :=
  let cs_name := default "new calculation" (data_cs_name data) in
  let calculation_type := default "simple" (data_calculation_type data) in
  (calculation_type = "simple"
   ∧ MLCA cs_name = inr mlca
   ∧ Contributions mlca = inr contributions)
  ∨ (calculation_type = "scenario"
     ∧ SuperstructureMLCA cs_name (data_data data) = inr mlca
     ∧ SuperstructureContributions mlca = inr contributions).

(** The two constructor calls of the mode of [data]. *)
Definition construction_calls (data : Data) : list call :=
  let cs_name := default "new calculation" (data_cs_name data) in
  let calculation_type := default "simple" (data_calculation_type data) in
  if bool_decide (calculation_type = "simple")
  then [new_MLCA cs_name; new_Contributions]
  else [new_SuperstructureMLCA cs_name; new_SuperstructureContributions].

End Engines.

End Calculations.

(** ** [ExchangeModify] *)

Module ExchangeModify.

(** An exchange, as far as the action touches it: the fields of the
    object in memory and the fields last saved. *)
Record Exchange : Type := mkExchange {
  fields : gmap string value;
  saved : gmap string value;
}.

(** [onTrigger(self, toggled)]: every entry of [self.data_] is assigned
    to the exchange, which is then saved. *)
Definition onTrigger (data_ : dict) (exchange : Exchange) : Exchange :=
  let assigned := foldl (λ f kv, <[kv.1 := kv.2]> f) (fields exchange) data_ in
  mkExchange assigned assigned.

End ExchangeModify.

(** ** [ABTab] *)

Module ABTab.

(** A tab widget object, by its identity. *)
Definition Widget : Type := nat.

(** [get_tab_name(self, obj)] over [self.tabs], a [dict] from tab names to
    widgets: the name when exactly one tab is [obj]; otherwise a warning
    is printed and the result is [None]. The second component is the
    count that the warning reports. *)
Definition get_tab_name (tabs : list (string * Widget)) (obj : Widget)
    : option string * option nat :=
  let tab_names := (List.filter (λ no : string * Widget, bool_decide (no.2 = obj)) tabs).*1 in
  match tab_names with
  | [name] => (Some name, None)
  | _ => (None, Some (length tab_names))
  end.

End ABTab.

(** ** [ProjectsMenu] *)

Module ProjectsMenu.

(** A project of [bd.projects]: its name and its [data], [None] when that
    is not a [dict]. *)
Record Project : Type := mkProject {
  name : string;
  data : option (gmap string value);
}.

Record QAction : Type := mkQAction {
  text : string;
  isEnabled : bool;
}.

(** Truth value of a Python value. *)
Definition truth (v : value) : bool :=
  match v with
  | VNone => false
  | VStr s => negb (bool_decide (s = ""))
  | VFloat f => negb (PrimFloat.eqb f 0%float)
  | VInt z => negb (bool_decide (z = 0%Z))
  | VKey _ => true
  | VMethod m => negb (bool_decide (m = []))
  end.

(** The truth of [proj.data.get("25", False)] for [data] a [dict], false
    otherwise. *)
Definition bw_25 (proj : Project) : bool :=
  match data proj with
  | Some d => match d !! "25" with
              | Some v => truth v
              | None => false
              end
  | None => false
  end.

Section Populate.

(** The flag [AB_BW25] of the environment, and [sorted] on projects, whose
    order is that of the project class, outside the sources at hand. *)
Variable AB_BW25 : bool.
Variable sorted : list Project → list Project.

(** [populate(self)]: the actions of the menu after the call, whatever
    they were before ([self.clear()] comes first). *)
Definition populate (projects : list Project) (menu : list QAction) : list QAction :=
  let cleared : list QAction := [] in
  foldl (λ actions proj,
           let name := if negb (bw_25 proj) || AB_BW25
                       then name proj
                       else "[BW25] " +:+ name proj in
           actions ++ [mkQAction name (negb (bw_25 proj) || AB_BW25)])
        cleared (sorted projects).

End Populate.

End ProjectsMenu.

(** ** Sample data *)

Module Sample.

(** The usual header-to-field table. *)
Definition names (h : string) : string :=
  if decide (h = "Product") then "reference product"
  else if decide (h = "Activity") then "name"
  else if decide (h = "Unit") then "unit"
  else if decide (h = "Location") then "location"
  else if decide (h = "Database") then "database"
  else "amount".

Definition row (n : Z) : Row := [VInt n].

(** A model showing the frame [df], everything else empty. *)
Definition showing (df : DataFrame) : State :=
  mkState ∅ ∅ ∅ [] [] [] (Some df) None 0 [].

(** A catalog that knows two methods, and a store with two setups that
    also name methods the catalog has lost. *)
Definition catalog : gmap Method MethodMeta :=
  list_to_map [(["IPCC"; "GWP100"], {[ "unit" := VStr "kg CO2-Eq" ]});
               (["ReCiPe"; "water"], ∅)].

Definition store : gmap string CalculationSetup :=
  list_to_map
    [("CS1", mkCS [] [["old"]; ["IPCC"; "GWP100"]; ["gone"]; ["gone"]; ["ReCiPe"; "water"]]);
     ("CS2", mkCS [] [["gone"]; ["ReCiPe"; "water"]; ["old"]])].

(** The methods model before any setup is selected, and with CS1 current. *)
Definition methods_idle : State :=
  mkState store ∅ catalog [] [] [] None None 0 [].
Definition methods_on_CS1 : State :=
  mkState store ∅ catalog [] [] [] None (Some "CS1") 0 [].

(** A registry with a process, a process whose location is [None], and an
    emission; a store whose setup names the three and a key the registry
    does not have. *)
Definition act_a : Activity :=
  list_to_map [("name", VStr "A"); ("unit", VStr "kg"); ("location", VStr "GLO");
               ("database", VStr "db"); ("reference product", VStr "a");
               ("type", VStr "process")].
Definition act_b : Activity :=
  list_to_map [("name", VStr "B"); ("unit", VStr "kg"); ("location", VNone);
               ("database", VStr "db"); ("reference product", VStr "b");
               ("type", VStr "process")].
Definition act_c : Activity := <["type" := VStr "emission"]> act_a.

Definition registry : gmap Key Activity :=
  list_to_map [(("db", "a"), act_a); (("db", "b"), act_b); (("db", "c"), act_c)].

Definition activities_store : gmap string CalculationSetup :=
  {[ "CS1" := mkCS [[(("db", "a"), 1%float)]; [(("db", "b"), 2%float)];
                    [(("db", "c"), 3%float)]; [(("db", "d"), 4%float)]] [] ]}.

Definition row_a : Row :=
  [VFloat 1; VStr "kg"; VStr "a"; VStr "A"; VStr "GLO"; VStr "db"; VKey ("db", "a")].

(** The activity model before a setup is loaded, and showing the row of
    ("db", "a"). *)
Definition activities_idle : State :=
  mkState activities_store registry ∅ [] [] [] None None 0 [].
Definition showing_a : State :=
  mkState activities_store registry ∅ [] [] [] (Some [row_a]) (Some "CS1") 6 [].

(** A setup whose methods the catalog all has, in a store of its own. *)
Definition clean_setup : CalculationSetup :=
  mkCS [] [["IPCC"; "GWP100"]; ["ReCiPe"; "water"]].
Definition methods_clean : State :=
  mkState {[ "CS3" := clean_setup ]} ∅ catalog [] [] [] None None 0 [].

(** A frame of three methods rows. *)
Definition three_methods : DataFrame :=
  CSMethodsModel.method_row catalog
    <$> [["IPCC"; "GWP100"]; ["ReCiPe"; "water"]; ["IPCC"; "GWP100"]].
Definition showing_methods : State :=
  mkState store ∅ catalog [] [] [] (Some three_methods) (Some "CS1") 0 [].

(** The activity model on CS1 with [sync] connected to the activity of
    its one row, and the same after that activity has left the registry. *)
Definition tracking_a : State :=
  mkState activities_store registry ∅ [] [] [("db", "a")] (Some [row_a]) (Some "CS1") 6
    [("db", "a")].
Definition orphaned_a : State :=
  mkState activities_store ∅ ∅ [] [] [("db", "a")] (Some [row_a]) (Some "CS1") 6
    [("db", "a")].

(** A store whose setup names two processes with every field set. *)
Definition act_e : Activity := <["name" := VStr "E"]> act_a.
Definition registry_complete : gmap Key Activity :=
  list_to_map [(("db", "a"), act_a); (("db", "e"), act_e)].
Definition complete_setup : CalculationSetup :=
  mkCS [[(("db", "a"), 1%float)]; [(("db", "x"), 3%float)]; [(("db", "e"), 2%float)]] [].
Definition activities_complete : State :=
  mkState {[ "CS4" := complete_setup ]} registry_complete ∅ [] [] [("db", "q")] None None 0
    [("db", "q")].

(** An exchange and the data of a modification. *)
Definition exchange : ExchangeModify.Exchange :=
  ExchangeModify.mkExchange
    (list_to_map [("amount", VFloat 1); ("formula", VStr "a + b")])
    (list_to_map [("amount", VFloat 1); ("formula", VStr "a + b")]).
Definition new_amount : dict := [("amount", VFloat 2); ("comment", VStr "checked")].

(** Tabs of a panel, and projects of which one is a BW25 project. *)
Definition tabs : list (string * ABTab.Widget) :=
  [("History", 1); ("Welcome", 2); ("Graph Explorer", 3)].
Definition projects : list ProjectsMenu.Project :=
  [ProjectsMenu.mkProject "default" None;
   ProjectsMenu.mkProject "new" (Some {[ "25" := VInt 1 ]})].

(** Sample engines: an engine object is the name of its setup, a
    Monte-Carlo companion the demand and the methods it was built from.
    The simple engines always build and compute; the superstructure engine
    finds none of its exchanges in the matrix. *)
Definition MLCA (cs_name : string) : exn + string := inr cs_name.
Definition Contributions (mlca : string) : exn + string := inr ("contributions of " +:+ mlca).
Definition SuperstructureMLCA (cs_name : string) (df : option unit) : exn + string :=
  inl (ValueError "No overlap").
Definition SuperstructureContributions (mlca : string) : exn + string :=
  inr ("contributions of " +:+ mlca).
Definition calculate (mlca : string) : exn + string := inr mlca.
Definition MonteCarloLCA (demand : FunctionalUnit) (lcia_methods : list Method)
  : exn + (FunctionalUnit * list Method) := inr (demand, lcia_methods).

(** Engines that fail: a simple engine that does not know the setup, a
    superstructure engine that misses an exchange, a compute step that
    hits a missing key. *)
Definition MLCA_unknown (cs_name : string) : exn + string := inl (KeyError cs_name).
Definition MLCA_broken (cs_name : string) : exn + string :=
  inl (ValueError "singular matrix").
Definition SuperstructureMLCA_missing (cs_name : string) (df : option unit) : exn + string :=
  inl ScenarioExchangeNotFoundError.
Definition SuperstructureMLCA_type (cs_name : string) (df : option unit) : exn + string :=
  inl (TypeError "NoneType").
Definition calculate_fails (mlca : string) : exn + string := inl (KeyError "('db', 'x')").

Definition run_sample : Calculations.Data unit →
    M Calculations.World (string * string * (FunctionalUnit * list Method)) :=
  Calculations.do_LCA_calculations string string (FunctionalUnit * list Method) unit
    MLCA Contributions SuperstructureMLCA SuperstructureContributions
    calculate MonteCarloLCA.

(** The orchestrator over sample engines of one's choice. *)
Definition run_with (MLCA' : string → exn + string)
    (SuperstructureMLCA' : string → option unit → exn + string)
    (calculate' : string → exn + string) : Calculations.Data unit →
    M Calculations.World (string * string * (FunctionalUnit * list Method)) :=
  Calculations.do_LCA_calculations string string (FunctionalUnit * list Method) unit
    MLCA' Contributions SuperstructureMLCA' SuperstructureContributions
    calculate' MonteCarloLCA.

(** A world with a setup of two functional units and one method, and one
    with a setup that has no functional unit. *)
Definition two_units : Calculations.World :=
  Calculations.mkWorld
    {[ "CS1" := mkCS [[(("db", "a"), 1%float)]; [(("db", "b"), 2%float)]]
                     [["IPCC"; "GWP100"]] ]} [].
Definition no_unit : Calculations.World :=
  Calculations.mkWorld {[ "CS1" := mkCS [] [["IPCC"; "GWP100"]] ]} [].

Definition batch_CS1 : Calculations.Data unit :=
  Calculations.mkData unit (Some "CS1") (Some "batch") None.
Definition simple_CS1 : Calculations.Data unit :=
  Calculations.mkData unit (Some "CS1") (Some "simple") None.
Definition scenario_CS1 : Calculations.Data unit :=
  Calculations.mkData unit (Some "CS1") (Some "scenario") (Some tt).

End Sample.

(** * Properties *)

(** ** Running computations *)

Lemma run_bind {S A B} (m : M S A) (k : A → M S B) (s : S) :
  (m ≫= k) s = match m s with
               | (inr a, s') => k a s'
               | (inl e, s') => (inl e, s')
               end.
Proof. reflexivity. Qed.

Lemma run_bind_ok {S A B} (m : M S A) (k : A → M S B) (s s' : S) (a : A) :
  m s = (inr a, s') → (m ≫= k) s = k a s'.
Proof. intros H. by rewrite run_bind, H. Qed.

Lemma run_bind_raise {S A B} (m : M S A) (k : A → M S B) (s s' : S) (e : exn) :
  m s = (inl e, s') → (m ≫= k) s = (inl e, s').
Proof. intros H. by rewrite run_bind, H. Qed.

Lemma run_the_dataframe (s : State) (df : DataFrame) :
  _dataframe s = Some df → the_dataframe s = (inr df, s).
Proof. intros H. unfold the_dataframe. rewrite run_bind. simpl. by rewrite H. Qed.

Lemma run_emit (sg : signal) (s : State) :
  emit sg s = (inr tt, set_emitted (emitted s ++ [sg]) s).
Proof. reflexivity. Qed.

(** ** Rows and positions *)

Section Moves.
Context {A : Type}.
Implicit Types (l front back : list A) (x : A).

(** A list with [x] put between [front] and [back]: where [x] is, what
    follows it, and what is left without it. *)
Lemma placed_lookup front back x p :
  length front = p → (front ++ x :: back) !! p = Some x.
Proof. intros <-. by rewrite list_lookup_middle. Qed.

Lemma placed_lookup_next front back x p :
  length front = p → (front ++ x :: back) !! S p = back !! 0.
Proof.
  intros <-. rewrite lookup_app_r by lia.
  by replace (S (length front) - length front) with 1 by lia.
Qed.

Lemma placed_delete front back x p :
  length front = p → delete p (front ++ x :: back) = front ++ back.
Proof.
  intros <-. induction front as [|y front IH]; [done|]. simpl. by rewrite IH.
Qed.

Lemma placed_Permutation front back x :
  front ++ x :: back ≡ₚ x :: front ++ back.
Proof. by rewrite Permutation_middle. Qed.

Lemma delete_app_l l1 l2 i :
  i < length l1 → delete i (l1 ++ l2) = delete i l1 ++ l2.
Proof.
  revert i. induction l1 as [|y l1 IH]; intros [|i] Hi; simpl in *; try lia; [done|].
  f_equal. apply IH. lia.
Qed.

Lemma iloc_nonneg l (i : nat) x :
  l !! i = Some x → iloc l (Z.of_nat i) = inr x.
Proof.
  intros Hx. pose proof (lookup_lt_Some _ _ _ Hx) as Hlt.
  unfold iloc. rewrite bool_decide_true by lia.
  rewrite (bool_decide_false (_ < 0)%Z) by lia.
  by rewrite Nat2Z.id, Hx.
Qed.

Lemma drop_label_nonneg l (i : nat) :
  i < length l → drop_label l (Z.of_nat i) = inr (delete i l).
Proof.
  intros Hlt. unfold drop_label. rewrite bool_decide_true by lia.
  by rewrite Nat2Z.id.
Qed.

Lemma np_insert_nonneg l (j : nat) x :
  j ≤ length l → np_insert l (Z.of_nat j) x = inr (take j l ++ x :: drop j l).
Proof.
  intros Hle. unfold np_insert. rewrite bool_decide_true by lia.
  rewrite (bool_decide_false (_ < 0)%Z) by lia.
  by rewrite Nat2Z.id.
Qed.

(** Moving up: the row leaves position [i] and enters at [j < i]. *)
Lemma move_up_shape l (i j : nat) x :
  l !! i = Some x → j < i →
  let l' := take j (delete i l) ++ x :: drop j (delete i l) in
  l' !! j = Some x ∧ l' !! S j = l !! j ∧ delete j l' = delete i l ∧ l' ≡ₚ l.
Proof.
  intros Hx Hji l'. pose proof (lookup_lt_Some _ _ _ Hx) as Hlt.
  assert (Hlen : length (take j (delete i l)) = j).
  { rewrite length_take, length_delete by eauto. lia. }
  subst l'. repeat split.
  - by apply placed_lookup.
  - rewrite (placed_lookup_next _ _ _ j Hlen), lookup_drop, Nat.add_0_r.
    by rewrite list_lookup_delete_lt.
  - by rewrite (placed_delete _ _ _ j Hlen), take_drop.
  - rewrite placed_Permutation, take_drop. symmetry. by apply delete_Permutation.
Qed.

(** Moving down: the row enters before position [j > i], then leaves [i]. *)
Lemma move_down_shape l (i j : nat) x :
  l !! i = Some x → i < j → j ≤ length l →
  let l' := delete i (take j l ++ x :: drop j l) in
  l' !! (j - 1) = Some x ∧ l' !! S (j - 1) = l !! j
  ∧ delete (j - 1) l' = delete i l ∧ l' ≡ₚ l.
Proof.
  intros Hx Hij Hj l'. pose proof (lookup_lt_Some _ _ _ Hx) as Hlt.
  assert (Hl' : l' = delete i (take j l) ++ x :: drop j l).
  { subst l'. apply delete_app_l. rewrite length_take. lia. }
  assert (Hlen : length (delete i (take j l)) = j - 1).
  { rewrite length_delete, length_take; [lia|].
    apply lookup_lt_is_Some_2. rewrite length_take. lia. }
  assert (Hrest : delete i (take j l) ++ drop j l = delete i l).
  { rewrite <- delete_app_l, take_drop; [done|]. rewrite length_take. lia. }
  rewrite Hl'. repeat split.
  - by apply placed_lookup.
  - rewrite (placed_lookup_next _ _ _ (j - 1) Hlen), lookup_drop. f_equal. lia.
  - by rewrite (placed_delete _ _ _ (j - 1) Hlen).
  - rewrite placed_Permutation, Hrest. symmetry. by apply delete_Permutation.
Qed.

End Moves.

(** ** [relocateRow] *)

Ltac run_M :=
  unfold the_dataframe, emit, log_error;
  unfold mbind, M_bind, bind, mret, M_ret, ret, gets, modify, lift, raise;
  cbn beta iota.

Lemma relocateRow_up (s : State) (df : DataFrame) (i j : nat) (x : Row) :
  _dataframe s = Some df → df !! i = Some x → j < i →
  CSGenericModel.relocateRow (Z.of_nat i) (Z.of_nat j) s
  = (inr tt,
     set_emitted (emitted s ++ [updated; calculation_setup_changed])
       (set_dataframe (Some (take j (delete i df) ++ x :: drop j (delete i df))) s)).
Proof.
  intros Hdf Hx Hji. pose proof (lookup_lt_Some _ _ _ Hx) as Hlt.
  unfold CSGenericModel.relocateRow. run_M.
  rewrite Hdf, (iloc_nonneg _ _ _ Hx).
  rewrite bool_decide_true by lia.
  rewrite drop_label_nonneg by done.
  rewrite np_insert_nonneg by (rewrite length_delete by eauto; lia).
  destruct s; simpl. by rewrite <- app_assoc.
Qed.

Lemma relocateRow_down (s : State) (df : DataFrame) (i j : nat) (x : Row) :
  _dataframe s = Some df → df !! i = Some x → i < j → j ≤ length df →
  CSGenericModel.relocateRow (Z.of_nat i) (Z.of_nat j) s
  = (inr tt,
     set_emitted (emitted s ++ [updated; calculation_setup_changed])
       (set_dataframe (Some (delete i (take j df ++ x :: drop j df))) s)).
Proof.
  intros Hdf Hx Hij Hj. pose proof (lookup_lt_Some _ _ _ Hx) as Hlt.
  unfold CSGenericModel.relocateRow. run_M.
  rewrite Hdf, (iloc_nonneg _ _ _ Hx).
  rewrite bool_decide_false by lia. rewrite bool_decide_true by lia.
  rewrite np_insert_nonneg by done.
  rewrite drop_label_nonneg
    by (rewrite length_app, length_take; simpl; rewrite length_drop; lia).
  destruct s; simpl. by rewrite <- app_assoc.
Qed.

Lemma cells_Permutation (c : nat) (df df' : DataFrame) :
  df' ≡ₚ df → cells c df' ≡ₚ cells c df.
Proof. intros H. unfold cells. by rewrite H. Qed.

(** C6. For a frame [df] and two distinct valid positions [i] and [j],
    [relocateRow(i, j)] returns, and the new frame is a rearrangement of
    [df] (so is every column of it, the keys among them); the moved row
    stands at position [p] ([j] when moving up, [j - 1] when moving down),
    immediately before the row that was at [j], and without it the frame
    is [df] without its row [i]: no other two rows have changed order. *)
Theorem relocateRow_moves_row_before_target (s : State) (df : DataFrame) (i j : Z) :
  _dataframe s = Some df →
  (0 ≤ i < Z.of_nat (length df))%Z →
  (0 ≤ j < Z.of_nat (length df))%Z →
  i ≠ j →
  ∃ (s' : State) (df' : DataFrame),
    let p := Z.to_nat (if bool_decide (j < i)%Z then j else j - 1)%Z in
    CSGenericModel.relocateRow i j s = (inr tt, s')
    ∧ _dataframe s' = Some df'
    ∧ df' ≡ₚ df
    ∧ (∀ c, cells c df' ≡ₚ cells c df)
    ∧ df' !! p = df !! Z.to_nat i
    ∧ df' !! S p = df !! Z.to_nat j
    ∧ delete p df' = delete (Z.to_nat i) df.
Proof.
  intros Hdf Hi Hj Hne.
  destruct (Z_of_nat_complete i) as [i' ->]; [lia|].
  destruct (Z_of_nat_complete j) as [j' ->]; [lia|].
  rewrite !Nat2Z.id.
  destruct (lookup_lt_is_Some_2 df i') as [x Hx]; [lia|].
  destruct (decide (j' < i')) as [Hlt|Hge].
  - eexists _, _. rewrite (relocateRow_up _ _ _ _ _ Hdf Hx Hlt).
    rewrite bool_decide_true by lia. rewrite Nat2Z.id.
    destruct (move_up_shape df i' j' x Hx Hlt) as (H1 & H2 & H3 & H4).
    split; [reflexivity|]. split; [by destruct s|].
    split; [done|]. split; [by intros c; apply cells_Permutation|].
    split; [exact (eq_trans H1 (eq_sym Hx))|]. by split.
  - assert (Hij : i' < j') by lia.
    eexists _, _. rewrite (relocateRow_down _ _ _ _ _ Hdf Hx Hij) by lia.
    rewrite bool_decide_false by lia.
    replace (Z.to_nat (Z.of_nat j' - 1)) with (j' - 1) by lia.
    destruct (move_down_shape df i' j' x Hx Hij) as (H1 & H2 & H3 & H4); [lia|].
    split; [reflexivity|]. split; [by destruct s|].
    split; [done|]. split; [by intros c; apply cells_Permutation|].
    split; [exact (eq_trans H1 (eq_sym Hx))|]. by split.
Qed.

Lemma relocateRow_moves_row_before_target_witness :
  ∃ (s' : State) (df' : DataFrame),
    let df := [Sample.row 0; Sample.row 1; Sample.row 2; Sample.row 3] in
    let p := 2 in
    CSGenericModel.relocateRow 0 3 (Sample.showing df) = (inr tt, s')
    ∧ _dataframe s' = Some df'
    ∧ df' ≡ₚ df
    ∧ (∀ c, cells c df' ≡ₚ cells c df)
    ∧ df' !! p = df !! 0
    ∧ df' !! S p = df !! 3
    ∧ delete p df' = delete 0 df.
Proof.
  apply (relocateRow_moves_row_before_target
           (Sample.showing [Sample.row 0; Sample.row 1; Sample.row 2; Sample.row 3])
           [Sample.row 0; Sample.row 1; Sample.row 2; Sample.row 3] 0 3);
    [reflexivity | simpl; lia | simpl; lia | lia].
Defined.

Lemma iloc_in_range {A} (l : list A) (i : Z) :
  (- Z.of_nat (length l) ≤ i < Z.of_nat (length l))%Z → ∃ x, iloc l i = inr x.
Proof.
  intros Hi. unfold iloc. rewrite bool_decide_true by done.
  match goal with |- context [l !! ?k] =>
    destruct (lookup_lt_is_Some_2 l k) as [x ->]; [|by eauto] end.
  case_bool_decide; lia.
Qed.

(** C10. [relocateRow(i, i)] at a position [i] of the frame returns with
    the frame and every other attribute as they were, and has emitted
    [updated] and then [calculation_setup_changed]. *)
Theorem relocateRow_same_index_only_emits (s : State) (df : DataFrame) (i : Z) :
  _dataframe s = Some df →
  (- Z.of_nat (length df) ≤ i < Z.of_nat (length df))%Z →
  CSGenericModel.relocateRow i i s
  = (inr tt, set_emitted (emitted s ++ [updated; calculation_setup_changed]) s).
Proof.
  intros Hdf Hi. destruct (iloc_in_range df i Hi) as [x Hx].
  unfold CSGenericModel.relocateRow. run_M. rewrite Hdf, Hx.
  rewrite !bool_decide_false by lia.
  destruct s; simpl. by rewrite <- app_assoc.
Qed.

Lemma relocateRow_same_index_only_emits_witness :
  let s := Sample.showing [Sample.row 0; Sample.row 1; Sample.row 2] in
  CSGenericModel.relocateRow 1 1 s
  = (inr tt, set_emitted (emitted s ++ [updated; calculation_setup_changed]) s).
Proof.
  apply (relocateRow_same_index_only_emits
           (Sample.showing [Sample.row 0; Sample.row 1; Sample.row 2])
           [Sample.row 0; Sample.row 1; Sample.row 2] 1);
    [reflexivity | simpl; lia].
Defined.

(** ** [filter_methods] and [update_cs] *)

Lemma filter_methods_from_spec catalog (cs : list Method) (i : nat) :
  CSMethodsModel.filter_methods_from catalog cs i
  = take i cs ++ List.filter (CSMethodsModel.in_methods catalog) (drop i cs).
Proof.
  funelim (CSMethodsModel.filter_methods_from catalog cs i).
  - (* i < len(cs): cs[i] stays and i moves on, or cs[i] is popped *)
    destruct (lookup_lt_is_Some_2 cs i Hlt) as [m Hm].
    rewrite (list_lookup_total_correct _ _ _ Hm) in *.
    rewrite (drop_S _ _ _ Hm). simpl.
    destruct (CSMethodsModel.in_methods catalog m) eqn:Hin.
    + rewrite H. rewrite (take_S_r _ _ _ Hm), <- app_assoc. done.
    + rewrite H0. rewrite delete_take_drop.
      assert (Hlen : i = length (take i cs)) by (rewrite length_take; lia).
      by rewrite (take_app_length' _ _ _ Hlen), (drop_app_length' _ _ _ Hlen).
  - (* the loop has ended *)
    rewrite drop_ge by lia. rewrite take_ge by lia. by rewrite app_nil_r.
Qed.

Lemma filter_methods_spec catalog (cs : list Method) :
  CSMethodsModel.filter_methods catalog cs
  = List.filter (CSMethodsModel.in_methods catalog) cs.
Proof. unfold CSMethodsModel.filter_methods. by rewrite filter_methods_from_spec. Qed.

Lemma set_cs_controller_id (s : State) : set_cs_controller (cs_controller s) s = s.
Proof. by destruct s. Qed.

Lemma run_sweep (items : list (string * CalculationSetup)) (s : State) :
  for_each items (λ item, CSMethodsModel.filter_stored item.1 item.2) s
  = (inr tt, set_cs_controller (foldl (CSMethodsModel.swept (bw_methods s)) (cs_controller s) items) s).
Proof.
  revert s. induction items as [|item items IH]; intros s; simpl.
  - by rewrite set_cs_controller_id.
  - unfold bind, CSMethodsModel.filter_stored. run_M. rewrite IH. by destruct s.
Qed.

Lemma swept_lookup_other catalog items (st : gmap string CalculationSetup) name :
  name ∉ items.*1 → foldl (CSMethodsModel.swept catalog) st items !! name = st !! name.
Proof.
  revert st. induction items as [|[n cs] items IH]; intros st Hnot; [done|].
  simpl in *. apply not_elem_of_cons in Hnot as [Hne Hnot].
  rewrite IH by done. unfold CSMethodsModel.swept. simpl. by rewrite lookup_insert_ne.
Qed.

Lemma swept_lookup catalog items (st : gmap string CalculationSetup) name cs :
  NoDup items.*1 → (name, cs) ∈ items →
  foldl (CSMethodsModel.swept catalog) st items !! name
  = Some (mkCS (inv cs) (CSMethodsModel.filter_methods catalog (ia cs))).
Proof.
  revert st. induction items as [|[n c] items IH]; intros st Hnd Hin.
  - by apply elem_of_nil in Hin.
  - simpl in *. apply NoDup_cons in Hnd as [Hn Hnd].
    apply elem_of_cons in Hin as [Heq|Hin].
    + inversion Heq; subst. rewrite swept_lookup_other by done.
      unfold CSMethodsModel.swept. simpl. by rewrite lookup_insert_eq.
    + by apply IH.
Qed.

Lemma sweep_store catalog (st : gmap string CalculationSetup) :
  foldl (CSMethodsModel.swept catalog) st (map_to_list st)
  = (λ cs, mkCS (inv cs) (List.filter (CSMethodsModel.in_methods catalog) (ia cs))) <$> st.
Proof.
  apply map_eq. intros name. rewrite lookup_fmap.
  destruct (st !! name) as [cs|] eqn:Hcs; simpl.
  - rewrite <- filter_methods_spec. apply swept_lookup.
    + apply NoDup_fst_map_to_list.
    + by apply elem_of_map_to_list.
  - rewrite swept_lookup_other; [done|].
    intros Hin. apply list_elem_of_fmap in Hin as [[n c] [-> Hin]].
    apply elem_of_map_to_list in Hin. simpl in *. congruence.
Qed.

Lemma update_cs_sweep (s : State) :
  current_cs s = None →
  CSMethodsModel.update_cs None s
  = (inr tt,
     set_emitted (emitted s ++ [updated])
       (set_cs_controller
          ((λ cs, mkCS (inv cs) (List.filter (CSMethodsModel.in_methods (bw_methods s)) (ia cs)))
             <$> cs_controller s) s)).
Proof.
  intros Hcur. unfold CSMethodsModel.update_cs.
  rewrite run_bind. unfold gets at 1. rewrite Hcur. simpl.
  rewrite run_bind. unfold gets at 1.
  rewrite run_bind, run_sweep, sweep_store.
  reflexivity.
Qed.

Lemma filter_twice {A} (f : A → bool) (l : list A) :
  List.filter f (List.filter f l) = List.filter f l.
Proof.
  induction l as [|x l IH]; simpl; [done|].
  destruct (f x) eqn:Hx; simpl; [|done]. by rewrite Hx, IH.
Qed.

(** C4. With no name given and no setup current, [update_cs] returns, and
    every setup of the store keeps its name and its functional units while
    its method list becomes the list of those of its references that the
    catalog has, in their order: each reference the catalog lacks is gone,
    and the references it has are the same as before, in the same order. *)
Theorem update_cs_sweeps_every_setup (s : State) :
  current_cs s = None →
  ∃ s' : State,
    CSMethodsModel.update_cs None s = (inr tt, s')
    ∧ dom (cs_controller s') = dom (cs_controller s)
    ∧ ∀ (name : string) (cs : CalculationSetup),
        cs_controller s !! name = Some cs →
        ∃ cs' : CalculationSetup,
          cs_controller s' !! name = Some cs'
          ∧ inv cs' = inv cs
          ∧ ia cs' = List.filter (λ m, bool_decide (is_Some (bw_methods s !! m))) (ia cs)
          ∧ ia cs' `sublist_of` ia cs
          ∧ (∀ m, bw_methods s !! m = None → m ∉ ia cs')
          ∧ List.filter (λ m, bool_decide (is_Some (bw_methods s !! m))) (ia cs')
            = List.filter (λ m, bool_decide (is_Some (bw_methods s !! m))) (ia cs).
Proof.
  intros Hcur. eexists. split; [by apply update_cs_sweep|].
  simpl. split; [by rewrite dom_fmap_L|].
  intros name cs Hcs. eexists. rewrite lookup_fmap, Hcs. simpl.
  split; [reflexivity|]. split; [reflexivity|]. split; [reflexivity|].
  split; [|split].
  - induction (ia cs) as [|m l IH]; simpl; [constructor|].
    destruct (CSMethodsModel.in_methods _ m); by constructor.
  - intros m Hm Hin. apply list_elem_of_In, filter_In in Hin as [_ Hin].
    unfold CSMethodsModel.in_methods in Hin.
    apply bool_decide_eq_true in Hin as [? ?]. congruence.
  - apply filter_twice.
Qed.

Lemma update_cs_sweeps_every_setup_witness :
  ∃ s' : State,
    CSMethodsModel.update_cs None Sample.methods_idle = (inr tt, s')
    ∧ dom (cs_controller s') = dom (cs_controller Sample.methods_idle)
    ∧ ∀ (name : string) (cs : CalculationSetup),
        cs_controller Sample.methods_idle !! name = Some cs →
        ∃ cs' : CalculationSetup,
          cs_controller s' !! name = Some cs'
          ∧ inv cs' = inv cs
          ∧ ia cs' = List.filter (λ m, bool_decide (is_Some (bw_methods Sample.methods_idle !! m))) (ia cs)
          ∧ ia cs' `sublist_of` ia cs
          ∧ (∀ m, bw_methods Sample.methods_idle !! m = None → m ∉ ia cs')
          ∧ List.filter (λ m, bool_decide (is_Some (bw_methods Sample.methods_idle !! m))) (ia cs')
            = List.filter (λ m, bool_decide (is_Some (bw_methods Sample.methods_idle !! m))) (ia cs).
Proof.
  apply (update_cs_sweeps_every_setup Sample.methods_idle). reflexivity.
Defined.

(** On the sample store the sweep leaves exactly the two known methods. *)
Example update_cs_sweep_sample :
  ∃ s', CSMethodsModel.update_cs None Sample.methods_idle = (inr tt, s')
    ∧ ia <$> cs_controller s' !! "CS1" = Some [["IPCC"; "GWP100"]; ["ReCiPe"; "water"]]
    ∧ ia <$> cs_controller s' !! "CS2" = Some [["ReCiPe"; "water"]].
Proof. eexists. split; [reflexivity|]. by vm_compute. Qed.

(** C3. With a setup current and no name given, [update_cs] does not keep
    the setup: it sets [current_cs] to [None], looks [None] up in the store
    and raises [KeyError]; the store, the frame and the signals are as
    they were, so no stale reference has been removed and nothing has been
    synchronised. *)
Theorem update_cs_without_name_loses_current_setup (s : State) :
  is_Some (current_cs s) →
  CSMethodsModel.update_cs None s = (inl (KeyError "None"), set_current_cs None s).
Proof.
  intros [c Hc]. unfold CSMethodsModel.update_cs. run_M. by rewrite Hc.
Qed.

Lemma update_cs_without_name_loses_current_setup_witness :
  current_cs Sample.methods_on_CS1 = Some "CS1"
  ∧ CSMethodsModel.update_cs None Sample.methods_on_CS1
    = (inl (KeyError "None"), set_current_cs None Sample.methods_on_CS1).
Proof.
  split; [reflexivity|].
  apply (update_cs_without_name_loses_current_setup Sample.methods_on_CS1).
  by eexists.
Defined.

(** ** [do_LCA_calculations] *)

Section Orchestrator.

Import Calculations.

Context {MLCA_t Contributions_t MonteCarlo_t ScenarioData : Type}.
Context (MLCA : string → exn + MLCA_t).
Context (Contributions : MLCA_t → exn + Contributions_t).
Context (SuperstructureMLCA : string → option ScenarioData → exn + MLCA_t).
Context (SuperstructureContributions : MLCA_t → exn + Contributions_t).
Context (calculate : MLCA_t → exn + MLCA_t).
Context (MonteCarloLCA : FunctionalUnit → list Method → exn + MonteCarlo_t).

Local Abbreviation run :=
  (do_LCA_calculations MLCA_t Contributions_t MonteCarlo_t ScenarioData
     MLCA Contributions SuperstructureMLCA SuperstructureContributions
     calculate MonteCarloLCA).
Local Abbreviation built :=
  (constructed MLCA_t Contributions_t ScenarioData
     MLCA Contributions SuperstructureMLCA SuperstructureContributions).

Ltac in_calls :=
  rewrite ?elem_of_app, ?elem_of_cons; auto 6.
Ltac not_in_calls :=
  let Hin := fresh "Hin" in
  intros Hin; rewrite ?elem_of_app, ?elem_of_cons, ?elem_of_nil in Hin;
  intuition (discriminate || eauto).

Ltac run_calc :=
  unfold do_LCA_calculations, try_except, setup_getitem, did;
  unfold mbind, M_bind, bind, mret, M_ret, ret, gets, modify, lift, raise;
  cbn beta iota.

(** After the engines are built, the compute step is what comes next. *)
Lemma run_after_construction (data : Data ScenarioData) (w : World) mlca contributions :
  built data mlca contributions →
  run data w
  = (did mlca_calculate;;
     mlca' ← lift (calculate mlca);
     cs ← setup_getitem (default "new calculation" (data_cs_name _ data));
     demand ← match inv cs with
              | fu :: _ => mret fu
              | [] => raise IndexError
              end;
     did (new_MonteCarloLCA demand (ia cs));;
     mc ← lift (MonteCarloLCA demand (ia cs));
     mret (mlca', contributions, mc))
      (mkWorld (calculation_setups w) (calls w ++ construction_calls _ data)).
Proof.
  unfold constructed, construction_calls.
  intros [(Ht & Hm & Hc)|(Ht & Hm & Hc)]; run_calc; rewrite Ht; simpl.
  - rewrite Hm, Hc. simpl. by rewrite <- !app_assoc.
  - rewrite Hm, Hc. simpl. by rewrite <- !app_assoc.
Qed.

(** C9. For a setup without functional units, once the engines are built
    and the compute step has returned, [do_LCA_calculations] raises
    [IndexError] at the access to the first functional unit: the exception
    is not a [BW2CalcError], and no Monte-Carlo companion has been built. *)
Theorem empty_setup_raises_IndexError (data : Data ScenarioData) (w : World)
    mlca contributions mlca' cs :
  built data mlca contributions →
  calculate mlca = inr mlca' →
  calculation_setups w !! default "new calculation" (data_cs_name _ data) = Some cs →
  inv cs = [] →
  run data w
  = (inl IndexError,
     mkWorld (calculation_setups w)
       (calls w ++ construction_calls _ data ++ [mlca_calculate]))
  ∧ ∀ title detail, (run data w).1 ≠ inl (BW2CalcError title detail).
Proof.
  intros Hb Hcalc Hcs Hinv.
  assert (Hrun : run data w
    = (inl IndexError,
       mkWorld (calculation_setups w)
         (calls w ++ construction_calls _ data ++ [mlca_calculate]))).
  { rewrite (run_after_construction _ _ _ _ Hb). run_calc. simpl.
    rewrite Hcalc, Hcs, Hinv. by rewrite <- app_assoc. }
  split; [done|]. intros title detail. by rewrite Hrun.
Qed.

(** C2, amended. Once the engines are built, the orchestrator calls the
    compute step of the deterministic engine and never that of a
    Monte-Carlo companion, however the run ends. When the compute step
    returns, the setup is in the store with [fu] as its first functional
    unit, and the companion builds from [fu] and the whole method list,
    the run returns the engine after computing, the contributions and that
    companion. *)
Theorem do_LCA_calculations_after_construction (data : Data ScenarioData) (w : World)
    mlca contributions :
  built data mlca contributions →
  (∃ new, calls (run data w).2 = calls w ++ new
          ∧ mlca_calculate ∈ new ∧ mc_calculate ∉ new)
  ∧ ∀ mlca' cs fu rest mc,
      calculate mlca = inr mlca' →
      calculation_setups w !! default "new calculation" (data_cs_name _ data) = Some cs →
      inv cs = fu :: rest →
      MonteCarloLCA fu (ia cs) = inr mc →
      run data w
      = (inr (mlca', contributions, mc),
         mkWorld (calculation_setups w)
           (calls w ++ construction_calls _ data
              ++ [mlca_calculate; new_MonteCarloLCA fu (ia cs)])).
Proof.
  intros Hb. rewrite (run_after_construction _ _ _ _ Hb). split.
  - assert (Hcc : mc_calculate ∉ construction_calls _ data).
    { unfold construction_calls. case_bool_decide; not_in_calls. }
    run_calc. simpl.
    destruct (calculate mlca) as [e|mlca']; simpl.
    { eexists. rewrite <- app_assoc. split; [done|]. split; [in_calls | not_in_calls]. }
    destruct (calculation_setups w !! _) as [cs|]; simpl.
    2:{ eexists. rewrite <- app_assoc. split; [done|]. split; [in_calls | not_in_calls]. }
    destruct (inv cs) as [|fu rest]; simpl.
    { eexists. rewrite <- app_assoc. split; [done|]. split; [in_calls | not_in_calls]. }
    destruct (MonteCarloLCA fu (ia cs)) as [e|mc]; simpl.
    all: eexists; rewrite <- !app_assoc; split; [done|]; split; [in_calls | not_in_calls].
  - intros mlca' cs fu rest mc Hcalc Hcs Hinv Hmc. run_calc. simpl.
    rewrite Hcalc, Hcs, Hinv. simpl. rewrite Hmc. by rewrite <- !app_assoc.
Qed.

(** C5. In scenario mode, when building the superstructure engine or its
    contributions raises [ValueError], [do_LCA_calculations] raises
    "Scenario LCA failed." with the fixed message, and
    [restoreOverrideCursor] is the last call made and the only one of its
    kind. *)
Theorem scenario_without_overlap_fails_after_cursor_restore
    (data : Data ScenarioData) (w : World) (msg : string) :
  data_calculation_type _ data = Some "scenario" →
  (SuperstructureMLCA (default "new calculation" (data_cs_name _ data)) (data_data _ data)
   = inl (ValueError msg)
   ∨ ∃ mlca,
       SuperstructureMLCA (default "new calculation" (data_cs_name _ data)) (data_data _ data)
       = inr mlca
       ∧ SuperstructureContributions mlca = inl (ValueError msg)) →
  ∃ before,
    run data w
    = (inl (BW2CalcError "Scenario LCA failed."
              "Constructed LCA matrix does not contain any exchanges from the superstructure"),
       mkWorld (calculation_setups w) (calls w ++ before ++ [restoreOverrideCursor]))
    ∧ restoreOverrideCursor ∉ before.
Proof.
  intros Ht [Hm|(mlca & Hm & Hc)]; run_calc; rewrite Ht; simpl; rewrite Hm; simpl.
  - eexists [_]. rewrite <- !app_assoc. split; [done|]. not_in_calls.
  - rewrite Hc. simpl. eexists [_; _]. rewrite <- !app_assoc. split; [done|]. not_in_calls.
Qed.

End Orchestrator.

Lemma empty_setup_raises_IndexError_witness :
  Sample.run_sample Sample.simple_CS1 Sample.no_unit
  = (inl IndexError,
     Calculations.mkWorld (Calculations.calculation_setups Sample.no_unit)
       (Calculations.calls Sample.no_unit
          ++ Calculations.construction_calls _ Sample.simple_CS1
          ++ [Calculations.mlca_calculate]))
  ∧ ∀ title detail,
      (Sample.run_sample Sample.simple_CS1 Sample.no_unit).1
      ≠ inl (BW2CalcError title detail).
Proof.
  apply (empty_setup_raises_IndexError
           Sample.MLCA Sample.Contributions Sample.SuperstructureMLCA
           Sample.SuperstructureContributions Sample.calculate Sample.MonteCarloLCA
           Sample.simple_CS1 Sample.no_unit "CS1" "contributions of CS1" "CS1"
           (mkCS [] [["IPCC"; "GWP100"]])).
  - left. repeat split; reflexivity.
  - reflexivity.
  - reflexivity.
  - reflexivity.
Defined.

Lemma do_LCA_calculations_after_construction_witness :
  (∃ new,
     Calculations.calls (Sample.run_sample Sample.simple_CS1 Sample.two_units).2
     = Calculations.calls Sample.two_units ++ new
     ∧ Calculations.mlca_calculate ∈ new ∧ Calculations.mc_calculate ∉ new)
  ∧ ∀ mlca' cs fu rest mc,
      Sample.calculate "CS1" = inr mlca' →
      Calculations.calculation_setups Sample.two_units !! "CS1" = Some cs →
      inv cs = fu :: rest →
      Sample.MonteCarloLCA fu (ia cs) = inr mc →
      Sample.run_sample Sample.simple_CS1 Sample.two_units
      = (inr (mlca', "contributions of CS1", mc),
         Calculations.mkWorld (Calculations.calculation_setups Sample.two_units)
           (Calculations.calls Sample.two_units
              ++ Calculations.construction_calls _ Sample.simple_CS1
              ++ [Calculations.mlca_calculate; Calculations.new_MonteCarloLCA fu (ia cs)])).
Proof.
  apply (do_LCA_calculations_after_construction
           Sample.MLCA Sample.Contributions Sample.SuperstructureMLCA
           Sample.SuperstructureContributions Sample.calculate Sample.MonteCarloLCA
           Sample.simple_CS1 Sample.two_units "CS1" "contributions of CS1").
  left. repeat split; reflexivity.
Defined.

(** On the sample setup of two functional units the companion is built
    from the first one alone, with the whole method list. *)
Example do_LCA_calculations_two_units :
  Sample.run_sample Sample.simple_CS1 Sample.two_units
  = (inr ("CS1", "contributions of CS1",
          ([(("db", "a"), 1%float)], [["IPCC"; "GWP100"]])),
     Calculations.mkWorld (Calculations.calculation_setups Sample.two_units)
       [Calculations.new_MLCA "CS1"; Calculations.new_Contributions;
        Calculations.mlca_calculate;
        Calculations.new_MonteCarloLCA [(("db", "a"), 1%float)] [["IPCC"; "GWP100"]]]).
Proof. reflexivity. Qed.

(** C2 as stated fails for a setup without functional units: the engines
    are built, and the run returns no triple. *)
Lemma do_LCA_calculations_no_triple_without_units :
  ¬ (Calculations.constructed _ _ _
       Sample.MLCA Sample.Contributions Sample.SuperstructureMLCA
       Sample.SuperstructureContributions
       Sample.simple_CS1 "CS1" "contributions of CS1" →
     ∃ triple w',
       Sample.run_sample Sample.simple_CS1 Sample.no_unit = (inr triple, w')).
Proof.
  intros H. destruct H as (triple & w' & Hrun).
  - left. repeat split; reflexivity.
  - vm_compute in Hrun. discriminate Hrun.
Qed.

Lemma scenario_without_overlap_fails_after_cursor_restore_witness :
  ∃ before,
    Sample.run_sample Sample.scenario_CS1 Sample.two_units
    = (inl (BW2CalcError "Scenario LCA failed."
              "Constructed LCA matrix does not contain any exchanges from the superstructure"),
       Calculations.mkWorld (Calculations.calculation_setups Sample.two_units)
         (Calculations.calls Sample.two_units ++ before
            ++ [Calculations.restoreOverrideCursor]))
    ∧ Calculations.restoreOverrideCursor ∉ before.
Proof.
  apply (scenario_without_overlap_fails_after_cursor_restore
           Sample.MLCA Sample.Contributions Sample.SuperstructureMLCA
           Sample.SuperstructureContributions Sample.calculate Sample.MonteCarloLCA
           Sample.scenario_CS1 Sample.two_units "No overlap").
  - reflexivity.
  - left. reflexivity.
Defined.

(** ** [CSActivityModel] *)

Section Activities.

Import CSActivityModel.

Variable names : string → string.

Lemma after_rows_nil (s : State) : after_rows [] s = s.
Proof. unfold after_rows. simpl. rewrite !app_nil_r. by destruct s. Qed.

Lemma after_rows_cons (ka : Key * float) items (s : State) :
  after_rows items (after_rows [ka] s) = after_rows (ka :: items) s.
Proof.
  unfold after_rows, resolving, failing. destruct s; simpl.
  destruct (resolve _ ka.1); simpl; rewrite ?app_nil_r, <- ?app_assoc; done.
Qed.

(** One call of [build_row]: the record it returns makes the row
    [row_for], and the state is [after_rows] of the one item. *)
Lemma run_build_row (key : Key) (amount : float) (s : State) :
  ∃ d : dict,
    build_row names key amount s = (inr d, after_rows [(key, amount)] s)
    ∧ row_of_record HEADERS d = row_for names (activity_controller s) (key, amount).
Proof.
  unfold build_row, try_except, row_for, resolve, after_rows, resolving, failing, resolve.
  run_M. simpl.
  destruct (activity_controller s !! key) as [act|] eqn:Hact; simpl.
  - destruct (not_process act) eqn:Hp; simpl.
    + eexists. split; [by destruct s; simpl; rewrite ?app_nil_r|]. reflexivity.
    + eexists. split; [by destruct s; simpl; rewrite ?app_nil_r|]. reflexivity.
  - eexists. split; [by destruct s; simpl; rewrite ?app_nil_r|]. reflexivity.
Qed.

Lemma after_rows_registry items (s : State) :
  activity_controller (after_rows items s) = activity_controller s.
Proof. by destruct s. Qed.

(** The comprehension over [build_row]. *)
Lemma run_build_rows (items : list (Key * float)) (s : State) :
  ∃ ds : list dict,
    list_comp items (λ ka, build_row names ka.1 ka.2) s = (inr ds, after_rows items s)
    ∧ from_records ds HEADERS = row_for names (activity_controller s) <$> items.
Proof.
  revert s. induction items as [|[key amount] items IH]; intros s.
  - exists []. simpl. by rewrite after_rows_nil.
  - destruct (run_build_row key amount s) as (d & Hd & Hrow).
    destruct (IH (after_rows [(key, amount)] s)) as (ds & Hds & Hrows).
    exists (d :: ds). simpl. unfold bind at 1. rewrite Hd.
    unfold bind at 1. rewrite Hds. unfold ret.
    rewrite after_rows_cons. split; [done|].
    unfold from_records in *. f_equal; [exact Hrow|].
    rewrite after_rows_registry in Hrows. exact Hrows.
Qed.

Lemma list_comp_fmap {S A B C} (g : A → B) (f : B → M S C) (l : list A) :
  list_comp (g <$> l) f = list_comp l (λ a, f (g a)).
Proof.
  induction l as [|a l IH]; [done|].
  rewrite fmap_cons. simpl. by rewrite IH.
Qed.

Lemma list_comp_ext {S A B} (f g : A → M S B) (l : list A) :
  (∀ a, f a = g a) → list_comp l f = list_comp l g.
Proof.
  intros Hfg. induction l as [|a l IH]; [done|]. simpl. by rewrite Hfg, IH.
Qed.

Lemma shows_key_spec (df : DataFrame) (key : Key) :
  shows_key df key = true ↔ VKey key ∈ cells 6 df.
Proof.
  unfold shows_key. rewrite existsb_exists. split.
  - intros (v & Hin & Hv). apply list_elem_of_In in Hin.
    destruct v; try done. apply bool_decide_eq_true in Hv. by subst.
  - intros Hin. exists (VKey key). split; [by apply list_elem_of_In|].
    by apply bool_decide_eq_true.
Qed.

Lemma isdisjoint_single (df : DataFrame) (ka : Key * float) :
  isdisjoint (cells 6 df) [ka] = negb (shows_key df ka.1).
Proof.
  unfold isdisjoint, shows_key. simpl. by rewrite andb_true_r.
Qed.

Lemma filter_singletons (df : DataFrame) (new : list (Key * float)) :
  List.filter (isdisjoint (cells 6 df)) ((λ ka, [ka]) <$> new)
  = (λ ka, [ka]) <$> List.filter (λ ka, negb (shows_key df ka.1)) new.
Proof.
  induction new as [|ka new IH]; [done|].
  rewrite fmap_cons. cbn [List.filter].
  rewrite isdisjoint_single, IH. by destruct (shows_key df ka.1).
Qed.

Lemma column_key (df : DataFrame) : column HEADERS "key" df = inr (cells 6 df).
Proof. reflexivity. Qed.

(** [include_activities] on single-entry functional units, in one equation. *)
Lemma run_include_activities (s : State) (df : DataFrame) (new : list (Key * float)) :
  _dataframe s = Some df →
  include_activities names ((λ ka, [ka]) <$> new) s
  = match List.filter (λ ka, negb (shows_key df ka.1)) new with
    | [] => (inr tt, s)
    | fresh =>
        (inr tt,
         set_emitted (emitted s ++ [updated; calculation_setup_changed])
           (set_dataframe
              (Some (df ++ (row_for names (activity_controller s) <$> fresh)))
              (after_rows fresh s)))
    end.
Proof.
  intros Hdf. unfold include_activities.
  rewrite (run_bind_ok _ _ _ _ _ (run_the_dataframe _ _ Hdf)).
  rewrite run_bind, column_key. unfold lift at 1.
  cbn beta iota. rewrite filter_singletons, list_comp_fmap.
  set (fresh := List.filter _ new).
  destruct (run_build_rows fresh s) as (ds & Hds & Hrows).
  rewrite run_bind.
  rewrite (list_comp_ext _ (λ ka, build_row names ka.1 ka.2)) by (by intros [k v]).
  rewrite Hds.
  destruct fresh as [|ka fresh]; destruct ds as [|d ds]; try discriminate Hrows.
  - by rewrite after_rows_nil.
  - rewrite Hrows. run_M. destruct s; simpl. by rewrite <- app_assoc.
Qed.

(** *** [sync] and [load] *)

Lemma missing_row_dropped :
  forallb (λ v, negb (isna v)) missing_row = false.
Proof. reflexivity. Qed.

(** [dropna] keeps, of the rows built for [items], the resolved rows that
    have no missing cell. *)
Lemma dropna_rows (reg : gmap Key Activity) (items : list (Key * float)) :
  dropna (row_for names reg <$> items)
  = List.filter (λ r, forallb (λ v, negb (isna v)) r) (resolved_rows names reg items).
Proof.
  unfold dropna, resolved_rows, row_for.
  induction items as [|ka items IH]; [done|].
  rewrite fmap_cons. cbn [List.filter omap list_omap].
  destruct (resolve reg ka.1) as [act|]; cbn [fmap option_fmap option_map].
  - cbn [List.filter]. rewrite IH. done.
  - rewrite missing_row_dropped. exact IH.
Qed.

Lemma filter_all {A} (f : A → bool) (l : list A) :
  Forall (λ x, f x = true) l → List.filter f l = l.
Proof.
  induction 1 as [|x l Hx _ IH]; [done|]. simpl. by rewrite Hx, IH.
Qed.

Lemma run_sync (s : State) :
  truthy (current_cs s) = true →
  let items :=
    concat (match current_cs s ≫= (cs_controller s !!.) with
            | Some cs => inv cs
            | None => []
            end) in
  sync names s
  = (inr tt,
     set_emitted (emitted s ++ [updated])
       (set_key_col 6
          (set_dataframe
             (Some (dropna (row_for names (activity_controller s) <$> items)))
             (after_rows items s)))).
Proof.
  intros Hcur items.
  destruct (run_build_rows items s) as (ds & Hds & Hrows).
  unfold sync. run_M. rewrite Hcur. cbn zeta.
  change (list_comp _ _ s) with (list_comp items (λ ka, build_row names ka.1 ka.2) s).
  rewrite Hds, Hrows.
  by destruct s.
Qed.

(** The connections that are left when [load] has disconnected [sync]
    from the tracked activities. *)
Lemma run_disconnects (acts : list Key) (s : State) :
  for_each acts (λ act,
    modify (λ s, set_connections (disconnect act (connections s)) s)) s
  = (inr tt,
     set_connections (foldl (λ conns act, disconnect act conns) (connections s) acts) s).
Proof.
  revert s. induction acts as [|act acts IH]; intros s; simpl.
  - by destruct s.
  - unfold bind, modify at 1. rewrite IH. by destruct s.
Qed.

(** Where no resolved row has a missing cell, [load] shows exactly the
    functional units whose key resolves to a process, in their order, and
    logs one line for each of the others. *)
Lemma load_shows_resolved_rows (s : State) (name : string) (cs : CalculationSetup) :
  cs_controller s !! name = Some cs →
  name ≠ "" →
  Forall (λ r, forallb (λ v, negb (isna v)) r = true)
    (resolved_rows names (activity_controller s) (concat (inv cs))) →
  ∃ s' : State,
    load names name s = (inr tt, s')
    ∧ _dataframe s' = Some (resolved_rows names (activity_controller s) (concat (inv cs)))
    ∧ logged s'
      = logged s ++ (log_line (Some name)
                       <$> failing (activity_controller s) (concat (inv cs)))
    ∧ emitted s' = emitted s ++ [updated].
Proof.
  intros Hcs Hname Hrows. unfold load.
  rewrite run_bind. unfold gets at 1. rewrite Hcs.
  rewrite bool_decide_true by eauto.
  rewrite run_bind. unfold mret at 1, M_ret, ret.
  rewrite run_bind. unfold gets at 1.
  rewrite run_bind, run_disconnects.
  rewrite run_bind. unfold modify at 1.
  rewrite run_bind. unfold modify at 1.
  rewrite run_sync by (simpl; by rewrite bool_decide_false).
  eexists. split; [reflexivity|].
  destruct s as [store reg ? ? ? ? ? ? ? ?].
  cbn [_dataframe logged emitted set_emitted set_key_col set_dataframe
       cs_controller activity_controller current_cs after_rows set_activities
       set_connections set_logged set_current_cs] in *.
  change (Some name ≫= λ i : string, store !! i) with (store !! name).
  rewrite Hcs, dropna_rows. by rewrite filter_all by exact Hrows.
Qed.

(** [include_activities], given single-entry functional units, returns;
    the units [fresh] that it takes are those whose key the key column
    does not show, in their order; the frame gains the rows built for
    them at its end; [updated] and then [calculation_setup_changed] are
    emitted when [fresh] has a unit, and when it has none the state is
    what it was. *)
Lemma include_activities_skips_shown_appends_rest
    (s : State) (df : DataFrame) (new : list (Key * float)) :
  _dataframe s = Some df →
  ∃ (s' : State) (fresh : list (Key * float)),
    include_activities names ((λ ka, [ka]) <$> new) s = (inr tt, s')
    ∧ fresh = List.filter (λ ka, negb (shows_key df ka.1)) new
    ∧ (∀ ka, ka ∈ fresh ↔ ka ∈ new ∧ VKey ka.1 ∉ cells 6 df)
    ∧ _dataframe s' = Some (df ++ (row_for names (activity_controller s) <$> fresh))
    ∧ emitted s'
      = emitted s ++ match fresh with
                     | [] => []
                     | _ :: _ => [updated; calculation_setup_changed]
                     end
    ∧ (fresh = [] → s' = s).
Proof.
  intros Hdf. rewrite (run_include_activities s df new Hdf).
  remember (List.filter (λ ka, negb (shows_key df ka.1)) new) as fresh eqn:Hf.
  assert (Hfresh : ∀ ka, ka ∈ fresh ↔ ka ∈ new ∧ VKey ka.1 ∉ cells 6 df).
  { intros ka. rewrite Hf, list_elem_of_In, filter_In, <- list_elem_of_In.
    rewrite negb_true_iff, <- not_true_iff_false, shows_key_spec. done. }
  destruct fresh as [|ka rest].
  - exists s, []. rewrite !app_nil_r. by destruct s.
  - eexists _, (ka :: rest). split; [reflexivity|]. split; [done|].
    split; [done|]. destruct s; simpl in *. by rewrite Hdf.
Qed.

(** Where the keys of the units taken all resolve, the rows built for
    them are their resolved rows. *)
Lemma include_activities_rows_of_resolving_keys
    (reg : gmap Key Activity) (fresh : list (Key * float)) :
  Forall (λ ka, is_Some (resolve reg ka.1)) fresh →
  row_for names reg <$> fresh = resolved_rows names reg fresh.
Proof.
  induction 1 as [|ka fresh [act Hact] _ IH]; [done|].
  rewrite fmap_cons, IH. unfold resolved_rows, row_for.
  cbn [omap list_omap]. by rewrite Hact.
Qed.

(** C7, at the inputs where the code departs from it. For a functional
    unit whose key the frame does not show and the registry does not
    resolve to a process, [build_row] logs the failure and returns the
    empty [dict]. [include_activities] appends it all the same: the
    list [[{}]] is not empty, and nothing drops the record as [dropna]
    does in [sync]. The frame gains a row in which every cell is
    missing, the key as well, and both signals are emitted, although
    nothing was resolved, connected or tracked. *)
Theorem include_activities_unresolved_key_adds_missing_row
    (s : State) (df : DataFrame) (k : Key) (v : float) :
  _dataframe s = Some df →
  VKey k ∉ cells 6 df →
  resolve (activity_controller s) k = None →
  ∃ s' : State,
    include_activities names [[(k, v)]] s = (inr tt, s')
    ∧ _dataframe s' = Some (df ++ [missing_row])
    ∧ forallb isna missing_row = true
    ∧ (VKey k ∉ cells 6 (df ++ [missing_row]))
    ∧ emitted s' = emitted s ++ [updated; calculation_setup_changed]
    ∧ logged s' = logged s ++ [log_line (current_cs s) k]
    ∧ connections s' = connections s
    ∧ _activities s' = _activities s.
Proof.
  intros Hdf Hk Hres.
  assert (Hshow : shows_key df k = false).
  { apply not_true_iff_false. by rewrite shows_key_spec. }
  change [[(k, v)]] with ((λ ka : Key * float, [ka]) <$> [(k, v)]).
  rewrite (run_include_activities s df [(k, v)] Hdf).
  cbn [List.filter fst]. rewrite Hshow. cbn [negb].
  eexists. split; [reflexivity|].
  unfold after_rows, resolving, failing, row_for.
  cbn [fmap list_fmap omap list_omap fst snd]. rewrite Hres.
  cbn [fmap option_fmap option_map list_fmap].
  destruct s as [store areg cat em lg conns d cur kc acts].
  cbn [_dataframe emitted logged connections _activities current_cs
       set_emitted set_dataframe set_activities set_connections set_logged
       activity_controller] in *.
  rewrite !app_nil_r.
  repeat split.
  unfold cells. rewrite fmap_app, elem_of_app. intros [Hin|Hin]; [by apply Hk|].
  cbn in Hin. apply list_elem_of_singleton in Hin. discriminate Hin.
Qed.

(** C8. For a functional unit whose key the key column shows,
    [include_activities] on that unit alone returns with the state as it
    was (no row, no signal), and so does a second call right after it. *)
Theorem include_activities_shown_key_changes_nothing
    (s : State) (df : DataFrame) (k : Key) (v : float) :
  _dataframe s = Some df →
  VKey k ∈ cells 6 df →
  include_activities names [[(k, v)]] s = (inr tt, s)
  ∧ (include_activities names [[(k, v)]];; include_activities names [[(k, v)]]) s
    = (inr tt, s).
Proof.
  intros Hdf Hk. apply shows_key_spec in Hk.
  assert (Hone : include_activities names [[(k, v)]] s = (inr tt, s)).
  { change [[(k, v)]] with ((λ ka : Key * float, [ka]) <$> [(k, v)]).
    rewrite (run_include_activities s df [(k, v)] Hdf). simpl. by rewrite Hk. }
  split; [done|]. by rewrite run_bind, Hone.
Qed.

End Activities.

Lemma include_activities_skips_shown_appends_rest_witness :
  ∃ (s' : State) (fresh : list (Key * float)),
    let new := [(("db", "a"), 5%float); (("db", "b"), 2%float); (("db", "d"), 4%float)] in
    CSActivityModel.include_activities Sample.names ((λ ka, [ka]) <$> new) Sample.showing_a
    = (inr tt, s')
    ∧ fresh = List.filter (λ ka, negb (CSActivityModel.shows_key [Sample.row_a] ka.1)) new
    ∧ (∀ ka, ka ∈ fresh ↔ ka ∈ new ∧ VKey ka.1 ∉ cells 6 [Sample.row_a])
    ∧ _dataframe s'
      = Some ([Sample.row_a]
                ++ (CSActivityModel.row_for Sample.names
                      (activity_controller Sample.showing_a) <$> fresh))
    ∧ emitted s'
      = emitted Sample.showing_a ++ match fresh with
                                    | [] => []
                                    | _ :: _ => [updated; calculation_setup_changed]
                                    end
    ∧ (fresh = [] → s' = Sample.showing_a).
Proof.
  apply (include_activities_skips_shown_appends_rest Sample.names
           Sample.showing_a [Sample.row_a]
           [(("db", "a"), 5%float); (("db", "b"), 2%float); (("db", "d"), 4%float)]).
  reflexivity.
Defined.

Lemma include_activities_unresolved_key_adds_missing_row_witness :
  ∃ s' : State,
    CSActivityModel.include_activities Sample.names [[(("db", "d"), 4%float)]] Sample.showing_a
    = (inr tt, s')
    ∧ _dataframe s' = Some ([Sample.row_a] ++ [CSActivityModel.missing_row])
    ∧ forallb isna CSActivityModel.missing_row = true
    ∧ (VKey ("db", "d") ∉ cells 6 ([Sample.row_a] ++ [CSActivityModel.missing_row]))
    ∧ emitted s' = emitted Sample.showing_a ++ [updated; calculation_setup_changed]
    ∧ logged s'
      = logged Sample.showing_a
        ++ [CSActivityModel.log_line (current_cs Sample.showing_a) ("db", "d")]
    ∧ connections s' = connections Sample.showing_a
    ∧ _activities s' = _activities Sample.showing_a.
Proof.
  apply (include_activities_unresolved_key_adds_missing_row Sample.names
           Sample.showing_a [Sample.row_a] ("db", "d") 4%float).
  - reflexivity.
  - intros Hin. cbn in Hin. apply list_elem_of_singleton in Hin. discriminate Hin.
  - reflexivity.
Defined.

Lemma include_activities_shown_key_changes_nothing_witness :
  CSActivityModel.include_activities Sample.names [[(("db", "a"), 5%float)]] Sample.showing_a
  = (inr tt, Sample.showing_a)
  ∧ (CSActivityModel.include_activities Sample.names [[(("db", "a"), 5%float)]];;
     CSActivityModel.include_activities Sample.names [[(("db", "a"), 5%float)]])
      Sample.showing_a
    = (inr tt, Sample.showing_a).
Proof.
  apply (include_activities_shown_key_changes_nothing Sample.names
           Sample.showing_a [Sample.row_a] ("db", "a") 5%float).
  - reflexivity.
  - apply list_elem_of_here.
Defined.

(** C1, at an input where the code departs from it. The setup CS1 of the
    sample store names, in this order, a process, a process whose location
    is [None], an emission and a key the registry does not have. The key
    ("db", "b") resolves to a process, and [load] returns; yet the frame
    shows the row of ("db", "a") alone. The row of ("db", "b") has gone
    with the rows of the two keys that do not resolve, although nothing
    is logged for it and its activity has been connected and tracked. *)
Theorem load_drops_process_with_missing_field :
  CSActivityModel.resolve Sample.registry ("db", "b") = Some Sample.act_b
  ∧ ∃ s' : State,
      CSActivityModel.load Sample.names "CS1" Sample.activities_idle = (inr tt, s')
      ∧ _dataframe s' = Some [Sample.row_a]
      ∧ logged s'
        = ["Could not load key '('db', 'c')' in Calculation Setup 'CS1'";
           "Could not load key '('db', 'd')' in Calculation Setup 'CS1'"]
      ∧ _activities s' = [("db", "a"); ("db", "b")]
      ∧ emitted s' = [updated].
Proof.
  split; [by vm_compute|].
  eexists. split; [vm_compute; reflexivity|].
  repeat split.
Qed.

(** * Further properties *)

(** ** [do_LCA_calculations]: what is normalized and what is not *)

Section OrchestratorFailures.

Import Calculations.

Context {MLCA_t Contributions_t MonteCarlo_t ScenarioData : Type}.
Context (MLCA : string → exn + MLCA_t).
Context (Contributions : MLCA_t → exn + Contributions_t).
Context (SuperstructureMLCA : string → option ScenarioData → exn + MLCA_t).
Context (SuperstructureContributions : MLCA_t → exn + Contributions_t).
Context (calculate : MLCA_t → exn + MLCA_t).
Context (MonteCarloLCA : FunctionalUnit → list Method → exn + MonteCarlo_t).

Local Abbreviation run :=
  (do_LCA_calculations MLCA_t Contributions_t MonteCarlo_t ScenarioData
     MLCA Contributions SuperstructureMLCA SuperstructureContributions
     calculate MonteCarloLCA).
Local Abbreviation built :=
  (constructed MLCA_t Contributions_t ScenarioData
     MLCA Contributions SuperstructureMLCA SuperstructureContributions).
Local Abbreviation name_of data := (default "new calculation" (data_cs_name ScenarioData data)).
Local Abbreviation type_of data := (default "simple" (data_calculation_type ScenarioData data)).

Ltac unfold_run :=
  unfold do_LCA_calculations, try_except, setup_getitem, did;
  unfold mbind, M_bind, bind, mret, M_ret, ret, gets, modify, lift, raise;
  cbn beta iota.
Ltac absent :=
  let Hin := fresh "Hin" in
  intros Hin; rewrite ?elem_of_app, ?elem_of_cons, ?elem_of_nil in Hin;
  intuition (discriminate || eauto).
Ltac ran_with l :=
  exists l; rewrite <- ?app_assoc; split; [done | try split; absent].

(** Building the engines of simple mode raises [e]. *)
Definition simple_raises (data : Data ScenarioData) (e : exn) : Prop :=
  MLCA (name_of data) = inl e
  ∨ ∃ mlca, MLCA (name_of data) = inr mlca ∧ Contributions mlca = inl e.

(** Building the engines of scenario mode raises [e]. *)
Definition scenario_raises (data : Data ScenarioData) (e : exn) : Prop :=
  SuperstructureMLCA (name_of data) (data_data _ data) = inl e
  ∨ ∃ mlca, SuperstructureMLCA (name_of data) (data_data _ data) = inr mlca
            ∧ SuperstructureContributions mlca = inl e.

(** X1. In simple mode a [KeyError] from either constructor comes out as
    "LCA Failed" with the message of the error; the cursor is not
    restored and the compute step is not reached. *)
Theorem simple_mode_KeyError_is_LCA_Failed (data : Data ScenarioData) (w : World) (msg : string) :
  type_of data = "simple" →
  simple_raises data (KeyError msg) →
  ∃ new,
    run data w
    = (inl (BW2CalcError "LCA Failed" msg), mkWorld (calculation_setups w) (calls w ++ new))
    ∧ (restoreOverrideCursor ∉ new)
    ∧ (mlca_calculate ∉ new).
Proof.
  intros Ht [Hm|(mlca & Hm & Hc)]; unfold_run; rewrite Ht; simpl; rewrite Hm; simpl.
  - ran_with [new_MLCA (name_of data)].
  - rewrite Hc. simpl. ran_with [new_MLCA (name_of data); new_Contributions].
Qed.

(** X2. In simple mode any other exception of a constructor passes through
    as it is: only [KeyError] is normalized there. *)
Theorem simple_mode_other_errors_pass (data : Data ScenarioData) (w : World) (e : exn) :
  type_of data = "simple" →
  simple_raises data e →
  (∀ msg, e ≠ KeyError msg) →
  ∃ new,
    run data w = (inl e, mkWorld (calculation_setups w) (calls w ++ new))
    ∧ (restoreOverrideCursor ∉ new)
    ∧ (mlca_calculate ∉ new).
Proof.
  intros Ht Hr Hne.
  assert (Hh : match e with KeyError _ => true | _ => false end = false).
  { destruct e; try done. by destruct (Hne msg). }
  destruct Hr as [Hm|(mlca & Hm & Hc)]; unfold_run; rewrite Ht; simpl; rewrite Hm; simpl.
  - rewrite Hh. ran_with [new_MLCA (name_of data)].
  - rewrite Hc. simpl. rewrite Hh.
    ran_with [new_MLCA (name_of data); new_Contributions].
Qed.

(** The error that leaves the orchestrator for an error of the scenario
    constructors, by the class of that error; [None] for a class that no
    handler names. *)
Definition scenario_surfaced (e : exn) : option exn :=
  match e with
  | AssertionError msg => Some (BW2CalcError "Scenario LCA failed." msg)
  | ValueError _ =>
      Some (BW2CalcError "Scenario LCA failed."
              "Constructed LCA matrix does not contain any exchanges from the superstructure")
  | KeyError msg => Some (BW2CalcError "LCA Failed" msg)
  | CriticalCalculationError => Some (Exception CriticalCalculationError)
  | ScenarioExchangeNotFoundError => Some CriticalCalculationError
  | _ => None
  end.

(** X3. In scenario mode an error of a constructor that a handler names
    leaves as the table says, after exactly one cursor restore, which is
    the last call made; the compute step is not reached. *)
Theorem scenario_mode_failure_table (data : Data ScenarioData) (w : World) (e e' : exn) :
  type_of data = "scenario" →
  scenario_raises data e →
  scenario_surfaced e = Some e' →
  ∃ before,
    run data w
    = (inl e', mkWorld (calculation_setups w) (calls w ++ before ++ [restoreOverrideCursor]))
    ∧ (restoreOverrideCursor ∉ before)
    ∧ (mlca_calculate ∉ before).
Proof.
  intros Ht Hr He.
  destruct Hr as [Hm|(mlca & Hm & Hc)]; unfold_run; rewrite Ht; simpl; rewrite Hm; simpl.
  - destruct e; simpl in He; try discriminate He; injection He as <-; simpl;
      ran_with [new_SuperstructureMLCA (name_of data)].
  - rewrite Hc. simpl.
    destruct e; simpl in He; try discriminate He; injection He as <-; simpl;
      ran_with [new_SuperstructureMLCA (name_of data); new_SuperstructureContributions].
Qed.

(** In scenario mode an error of a constructor that no handler names
    passes through as it is, and the cursor is not restored. *)
Theorem scenario_mode_other_errors_pass (data : Data ScenarioData) (w : World) (e : exn) :
  type_of data = "scenario" →
  scenario_raises data e →
  scenario_surfaced e = None →
  ∃ new,
    run data w = (inl e, mkWorld (calculation_setups w) (calls w ++ new))
    ∧ restoreOverrideCursor ∉ new.
Proof.
  intros Ht Hr He.
  destruct Hr as [Hm|(mlca & Hm & Hc)]; unfold_run; rewrite Ht; simpl; rewrite Hm; simpl.
  - destruct e; simpl in He; try discriminate He; simpl;
      ran_with [new_SuperstructureMLCA (name_of data)].
  - rewrite Hc. simpl.
    destruct e; simpl in He; try discriminate He; simpl;
      ran_with [new_SuperstructureMLCA (name_of data); new_SuperstructureContributions].
Qed.

(** X4. A calculation type other than "simple" and "scenario" is logged with
    the name of the setup and raises [ValueError]; no engine is built. *)
Theorem unknown_mode_raises_ValueError (data : Data ScenarioData) (w : World) :
  type_of data ≠ "simple" →
  type_of data ≠ "scenario" →
  run data w
  = (inl (ValueError ""),
     mkWorld (calculation_setups w)
       (calls w ++ [log_error ("Calculation type must be: simple or scenario. Given: "
                               +:+ name_of data)])).
Proof.
  intros H1 H2. unfold_run. by rewrite !bool_decide_false by done.
Qed.

(** X5. Once the engines are built nothing is caught any more: an error of
    the compute step, a setup that the store does not have, and an error
    of the Monte-Carlo constructor each leave as they are, without a
    cursor restore. *)
Theorem errors_after_construction_escape (data : Data ScenarioData) (w : World)
    mlca contributions :
  built data mlca contributions →
  (∀ e, calculate mlca = inl e →
        run data w
        = (inl e, mkWorld (calculation_setups w)
                    (calls w ++ construction_calls _ data ++ [mlca_calculate])))
  ∧ (∀ mlca', calculate mlca = inr mlca' →
        calculation_setups w !! name_of data = None →
        run data w
        = (inl (KeyError (repr_str (name_of data))),
           mkWorld (calculation_setups w)
             (calls w ++ construction_calls _ data ++ [mlca_calculate])))
  ∧ (∀ mlca' cs fu rest e,
        calculate mlca = inr mlca' →
        calculation_setups w !! name_of data = Some cs →
        inv cs = fu :: rest →
        MonteCarloLCA fu (ia cs) = inl e →
        run data w
        = (inl e,
           mkWorld (calculation_setups w)
             (calls w ++ construction_calls _ data
                ++ [mlca_calculate; new_MonteCarloLCA fu (ia cs)]))).
Proof.
  intros Hb.
  rewrite (run_after_construction MLCA Contributions SuperstructureMLCA
             SuperstructureContributions calculate MonteCarloLCA _ _ _ _ Hb).
  repeat split.
  - intros e He. unfold_run. simpl. rewrite He. by rewrite <- app_assoc.
  - intros mlca' Hc Hs. unfold_run. simpl. rewrite Hc, Hs. by rewrite <- app_assoc.
  - intros mlca' cs fu rest e Hc Hs Hi He. unfold_run. simpl.
    rewrite Hc, Hs, Hi. simpl. rewrite He. by rewrite <- !app_assoc.
Qed.

(** X6. Whatever the engines do, the calls of a run extend those made
    before; the cursor is restored only in a run of scenario mode that
    ends in an error, and the compute step of a Monte-Carlo companion is
    never called. *)
Theorem cursor_restored_only_when_scenario_fails (data : Data ScenarioData) (w : World) :
  ∃ new,
    calls (run data w).2 = calls w ++ new
    ∧ (restoreOverrideCursor ∈ new →
       type_of data = "scenario" ∧ ∃ e, (run data w).1 = inl e)
    ∧ (mc_calculate ∉ new).
Proof.
  unfold_run.
  destruct (bool_decide (type_of data = "simple")) eqn:Hs; simpl;
    [|destruct (bool_decide (type_of data = "scenario")) eqn:Hc; simpl;
      [apply bool_decide_eq_true in Hc|]].
  all: repeat match goal with
       | |- context [match ?x with _ => _ end] =>
           lazymatch x with
           | context [match _ with _ => _ end] => fail
           | _ => destruct x; simpl
           end
       end.
  all: eexists; rewrite <- ?app_assoc; (split; [reflexivity|]).
  all: split; [|absent].
  all: first [ by (split; [assumption | eauto])
             | by (intros Hin; exfalso; revert Hin; absent) ].
Qed.

End OrchestratorFailures.

Lemma simple_mode_KeyError_is_LCA_Failed_witness :
  ∃ new,
    Sample.run_with Sample.MLCA_unknown Sample.SuperstructureMLCA Sample.calculate
      Sample.simple_CS1 Sample.two_units
    = (inl (BW2CalcError "LCA Failed" "CS1"),
       Calculations.mkWorld (Calculations.calculation_setups Sample.two_units)
         (Calculations.calls Sample.two_units ++ new))
    ∧ (Calculations.restoreOverrideCursor ∉ new)
    ∧ (Calculations.mlca_calculate ∉ new).
Proof.
  apply (simple_mode_KeyError_is_LCA_Failed
           Sample.MLCA_unknown Sample.Contributions Sample.SuperstructureMLCA
           Sample.SuperstructureContributions Sample.calculate Sample.MonteCarloLCA
           Sample.simple_CS1 Sample.two_units "CS1").
  - reflexivity.
  - left. reflexivity.
Defined.

Lemma simple_mode_other_errors_pass_witness :
  ∃ new,
    Sample.run_with Sample.MLCA_broken Sample.SuperstructureMLCA Sample.calculate
      Sample.simple_CS1 Sample.two_units
    = (inl (ValueError "singular matrix"),
       Calculations.mkWorld (Calculations.calculation_setups Sample.two_units)
         (Calculations.calls Sample.two_units ++ new))
    ∧ (Calculations.restoreOverrideCursor ∉ new)
    ∧ (Calculations.mlca_calculate ∉ new).
Proof.
  apply (simple_mode_other_errors_pass
           Sample.MLCA_broken Sample.Contributions Sample.SuperstructureMLCA
           Sample.SuperstructureContributions Sample.calculate Sample.MonteCarloLCA
           Sample.simple_CS1 Sample.two_units (ValueError "singular matrix")).
  - reflexivity.
  - left. reflexivity.
  - intros msg. discriminate.
Defined.

Lemma scenario_mode_failure_table_witness :
  ∃ before,
    Sample.run_with Sample.MLCA Sample.SuperstructureMLCA_missing Sample.calculate
      Sample.scenario_CS1 Sample.two_units
    = (inl CriticalCalculationError,
       Calculations.mkWorld (Calculations.calculation_setups Sample.two_units)
         (Calculations.calls Sample.two_units ++ before
            ++ [Calculations.restoreOverrideCursor]))
    ∧ (Calculations.restoreOverrideCursor ∉ before)
    ∧ (Calculations.mlca_calculate ∉ before).
Proof.
  apply (scenario_mode_failure_table
           Sample.MLCA Sample.Contributions Sample.SuperstructureMLCA_missing
           Sample.SuperstructureContributions Sample.calculate Sample.MonteCarloLCA
           Sample.scenario_CS1 Sample.two_units ScenarioExchangeNotFoundError).
  - reflexivity.
  - left. reflexivity.
  - reflexivity.
Defined.

Lemma scenario_mode_other_errors_pass_witness :
  ∃ new,
    Sample.run_with Sample.MLCA Sample.SuperstructureMLCA_type Sample.calculate
      Sample.scenario_CS1 Sample.two_units
    = (inl (TypeError "NoneType"),
       Calculations.mkWorld (Calculations.calculation_setups Sample.two_units)
         (Calculations.calls Sample.two_units ++ new))
    ∧ Calculations.restoreOverrideCursor ∉ new.
Proof.
  apply (scenario_mode_other_errors_pass
           Sample.MLCA Sample.Contributions Sample.SuperstructureMLCA_type
           Sample.SuperstructureContributions Sample.calculate Sample.MonteCarloLCA
           Sample.scenario_CS1 Sample.two_units (TypeError "NoneType")).
  - reflexivity.
  - left. reflexivity.
  - reflexivity.
Defined.

Lemma unknown_mode_raises_ValueError_witness :
  Sample.run_sample Sample.batch_CS1 Sample.two_units
  = (inl (ValueError ""),
     Calculations.mkWorld (Calculations.calculation_setups Sample.two_units)
       (Calculations.calls Sample.two_units
          ++ [Calculations.log_error
                "Calculation type must be: simple or scenario. Given: CS1"])).
Proof.
  apply (unknown_mode_raises_ValueError
           Sample.MLCA Sample.Contributions Sample.SuperstructureMLCA
           Sample.SuperstructureContributions Sample.calculate Sample.MonteCarloLCA
           Sample.batch_CS1 Sample.two_units).
  - discriminate.
  - discriminate.
Defined.

Lemma errors_after_construction_escape_witness :
  Sample.run_with Sample.MLCA Sample.SuperstructureMLCA Sample.calculate_fails
    Sample.simple_CS1 Sample.two_units
  = (inl (KeyError "('db', 'x')"),
     Calculations.mkWorld (Calculations.calculation_setups Sample.two_units)
       (Calculations.calls Sample.two_units
          ++ Calculations.construction_calls _ Sample.simple_CS1
          ++ [Calculations.mlca_calculate])).
Proof.
  apply (errors_after_construction_escape
           Sample.MLCA Sample.Contributions Sample.SuperstructureMLCA
           Sample.SuperstructureContributions Sample.calculate_fails Sample.MonteCarloLCA
           Sample.simple_CS1 Sample.two_units "CS1" "contributions of CS1").
  - left. repeat split; reflexivity.
  - reflexivity.
Defined.

(** ** [CSMethodsModel]: synchronising, including, deleting *)

Section Methods.

Import CSMethodsModel.

Ltac run_state :=
  unfold the_dataframe, emit, log_error;
  unfold mbind, M_bind, bind, mret, M_ret, ret, gets, modify, lift, raise;
  cbn beta iota.

(** The comprehension over [build_row] when the catalog has every method. *)
Lemma run_method_rows (ms : list Method) (s : State) :
  Forall (λ m, is_Some (bw_methods s !! m)) ms →
  ∃ ds, list_comp ms build_row s = (inr ds, s)
        ∧ from_records ds HEADERS = method_row (bw_methods s) <$> ms.
Proof.
  induction 1 as [|m ms [md Hm] _ (ds & Hds & Hrows)].
  - by exists [].
  - eexists (_ :: ds). simpl. unfold bind at 1, build_row at 1. run_state.
    rewrite Hm. rewrite Hds. split; [reflexivity|].
    unfold from_records in *. cbn [fmap list_fmap]. f_equal; [|exact Hrows].
    unfold method_row. by rewrite Hm.
Qed.

(** ... and when it lacks one: the first such method is the [KeyError]. *)
Lemma run_method_rows_stale (known : list Method) (m : Method) (rest : list Method) (s : State) :
  Forall (λ m, is_Some (bw_methods s !! m)) known →
  bw_methods s !! m = None →
  list_comp (known ++ m :: rest) build_row s = (inl (KeyError (repr_tuple m)), s).
Proof.
  intros Hknown Hm. induction Hknown as [|k known [md Hk] _ IH]; simpl.
  - unfold bind at 1, build_row at 1. run_state. by rewrite Hm.
  - unfold bind at 1, build_row at 1. run_state. rewrite Hk.
    unfold bind in IH. by rewrite IH.
Qed.

Lemma cells_method_rows catalog (ms : list Method) :
  cells 3 (method_row catalog <$> ms) = VMethod <$> ms.
Proof. unfold cells. rewrite <- list_fmap_compose. by apply list_fmap_ext. Qed.

Lemma run_methods_sync (s : State) (name : string) (cs : CalculationSetup) :
  name ≠ "" →
  cs_controller s !! name = Some cs →
  Forall (λ m, is_Some (bw_methods s !! m)) (ia cs) →
  sync (Some name) s
  = (inr tt,
     set_emitted (emitted s ++ [updated])
       (set_dataframe (Some (method_row (bw_methods s) <$> ia cs))
          (set_current_cs (Some name) s))).
Proof.
  intros Hname Hcs Hcat.
  destruct (run_method_rows (ia cs) (set_current_cs (Some name) s)) as (ds & Hds & Hrows);
    [by destruct s|].
  unfold sync. simpl. rewrite bool_decide_false by done. simpl.
  run_state. simpl. rewrite Hcs. rewrite Hds, Hrows. by destruct s.
Qed.

(** X7. [sync(name)] for a setup of the store whose methods the catalog all
    has: the setup becomes current, the frame has one row per method of
    its [ia], in order, so that [methods] reads the [ia] back, and
    [updated] is emitted. *)
Theorem methods_sync_shows_ia (s : State) (name : string) (cs : CalculationSetup) :
  name ≠ "" →
  cs_controller s !! name = Some cs →
  Forall (λ m, is_Some (bw_methods s !! m)) (ia cs) →
  ∃ s' : State,
    sync (Some name) s = (inr tt, s')
    ∧ current_cs s' = Some name
    ∧ _dataframe s' = Some (method_row (bw_methods s) <$> ia cs)
    ∧ methods s' = VMethod <$> ia cs
    ∧ emitted s' = emitted s ++ [updated]
    ∧ cs_controller s' = cs_controller s.
Proof.
  intros Hname Hcs Hcat. rewrite (run_methods_sync s name cs) by done.
  eexists. split; [reflexivity|].
  unfold methods. destruct s; simpl. by rewrite cells_method_rows.
Qed.

(** [sync(name)] for a name that the store does not have raises the
    assertion and changes nothing: no signal is emitted. *)
Theorem methods_sync_unknown_setup (s : State) (name : string) :
  name ≠ "" →
  cs_controller s !! name = None →
  sync (Some name) s
  = (inl (AssertionError "Given calculation setup does not exist."), s).
Proof.
  intros Hname Hcs. unfold sync. simpl. rewrite bool_decide_false by done. simpl.
  run_state. simpl. by rewrite Hcs.
Qed.

(** X8. [sync(name)] does not drop a method that the catalog lacks: it raises
    [KeyError] for the first such method, having made the setup current;
    the frame stays what it was and no signal is emitted. *)
Theorem methods_sync_stale_method (s : State) (name : string) (cs : CalculationSetup)
    (known : list Method) (m : Method) (rest : list Method) :
  name ≠ "" →
  cs_controller s !! name = Some cs →
  ia cs = known ++ m :: rest →
  Forall (λ m, is_Some (bw_methods s !! m)) known →
  bw_methods s !! m = None →
  sync (Some name) s
  = (inl (KeyError (repr_tuple m)), set_current_cs (Some name) s).
Proof.
  intros Hname Hcs Hia Hknown Hm.
  pose proof (run_method_rows_stale known m rest (set_current_cs (Some name) s)) as Hrun.
  unfold sync. simpl. rewrite bool_decide_false by done. simpl.
  run_state. simpl. rewrite Hcs, Hia. rewrite Hrun; [done| by destruct s | by destruct s].
Qed.

(** Without a name, or with the empty name, [sync] only emits [updated]. *)
Theorem methods_sync_without_name (s : State) (name : option string) :
  name = None ∨ name = Some "" →
  sync name s = (inr tt, set_emitted (emitted s ++ [updated]) s).
Proof. by intros [-> | ->]. Qed.

Lemma filter_in_catalog (catalog : gmap Method MethodMeta) (ms : list Method) :
  Forall (λ m, is_Some (catalog !! m)) (List.filter (in_methods catalog) ms).
Proof.
  apply Forall_forall. intros m Hin.
  apply list_elem_of_In, filter_In in Hin as [_ Hin].
  by apply bool_decide_eq_true in Hin.
Qed.

Lemma run_update_cs_named (s : State) (n : string) (cs : CalculationSetup) :
  n ≠ "" →
  cs_controller s !! n = Some cs →
  update_cs (Some n) s
  = (inr tt,
     set_emitted (emitted s ++ [updated])
       (set_dataframe
          (Some (method_row (bw_methods s)
                   <$> List.filter (in_methods (bw_methods s)) (ia cs)))
          (set_cs_controller
             (<[n := mkCS (inv cs) (List.filter (in_methods (bw_methods s)) (ia cs))]>
                (cs_controller s))
             (set_current_cs (Some n) s)))).
Proof.
  intros Hname Hcs. unfold update_cs.
  rewrite run_bind. unfold gets at 1.
  assert (Hgiven : bool_decide (is_Some (Some n)) = true)
    by (apply bool_decide_eq_true; by eexists).
  rewrite Hgiven, orb_true_r.
  rewrite run_bind. unfold modify at 1.
  rewrite run_bind. unfold gets at 1.
  rewrite run_bind. unfold gets at 1.
  cbn [current_cs set_current_cs cs_controller]. rewrite Hcs.
  rewrite run_bind. unfold filter_stored. rewrite run_bind. unfold gets at 1, modify at 1.
  cbn [bw_methods set_current_cs]. rewrite filter_methods_spec.
  rewrite (run_methods_sync _ n
             (mkCS (inv cs) (List.filter (in_methods (bw_methods s)) (ia cs)))).
  - by destruct s.
  - done.
  - destruct s; simpl. by rewrite lookup_insert_eq.
  - destruct s; simpl. apply filter_in_catalog.
Qed.

(** X9. [update_cs(name)] for a setup of the store always returns: the setup
    becomes current, its durable method list loses the references the
    catalog lacks and keeps the others in order, the other setups stay as
    they are, and the frame shows exactly the kept methods. *)
Theorem update_cs_named_filters_and_shows (s : State) (n : string) (cs : CalculationSetup) :
  n ≠ "" →
  cs_controller s !! n = Some cs →
  ∃ (s' : State) (kept : list Method),
    update_cs (Some n) s = (inr tt, s')
    ∧ kept = List.filter (λ m, bool_decide (is_Some (bw_methods s !! m))) (ia cs)
    ∧ cs_controller s' !! n = Some (mkCS (inv cs) kept)
    ∧ (∀ other, other ≠ n → cs_controller s' !! other = cs_controller s !! other)
    ∧ current_cs s' = Some n
    ∧ methods s' = VMethod <$> kept
    ∧ emitted s' = emitted s ++ [updated].
Proof.
  intros Hname Hcs. rewrite (run_update_cs_named s n cs) by done.
  eexists _, _. split; [reflexivity|]. split; [reflexivity|].
  unfold methods. destruct s; simpl in *.
  rewrite lookup_insert_eq, cells_method_rows.
  repeat split. intros other Hne. by rewrite lookup_insert_ne.
Qed.

(** [update_cs(name)] for a name the store does not have raises
    [KeyError], and by then that name is the current setup. *)
Theorem update_cs_unknown_name (s : State) (n : string) :
  cs_controller s !! n = None →
  update_cs (Some n) s = (inl (KeyError (repr_str n)), set_current_cs (Some n) s).
Proof.
  intros Hcs. unfold update_cs. run_state.
  assert (Hgiven : bool_decide (is_Some (Some n)) = true)
    by (apply bool_decide_eq_true; by eexists).
  rewrite Hgiven, orb_true_r.
  cbn [current_cs set_current_cs cs_controller]. by rewrite Hcs.
Qed.

(** X10. A second [update_cs(name)] right after the first finds nothing to
    remove: it leaves the store, the current setup and the frame as the
    first call left them and only emits [updated] again. *)
Theorem update_cs_named_twice (s : State) (n : string) (cs : CalculationSetup) :
  n ≠ "" →
  cs_controller s !! n = Some cs →
  ∃ s1 : State,
    update_cs (Some n) s = (inr tt, s1)
    ∧ update_cs (Some n) s1 = (inr tt, set_emitted (emitted s1 ++ [updated]) s1).
Proof.
  intros Hname Hcs. rewrite (run_update_cs_named s n cs) by done.
  eexists. split; [reflexivity|].
  rewrite (run_update_cs_named _ n
             (mkCS (inv cs) (List.filter (in_methods (bw_methods s)) (ia cs))));
    [|done|destruct s; cbn; by rewrite lookup_insert_eq].
  destruct s; cbn. by rewrite filter_twice, insert_insert_eq.
Qed.

(** *** [include_methods] *)

Lemma shows_method_spec (old_methods : list value) (m : Method) :
  shows_method old_methods m = true ↔ VMethod m ∈ old_methods.
Proof.
  unfold shows_method. rewrite existsb_exists. split.
  - intros (v & Hin & Hv). apply list_elem_of_In in Hin.
    destruct v; try done. apply bool_decide_eq_true in Hv. by subst.
  - intros Hin. exists (VMethod m). split; [by apply list_elem_of_In|].
    by apply bool_decide_eq_true.
Qed.

Lemma methods_set_dataframe (df : DataFrame) (s : State) :
  methods (set_dataframe (Some df) s) = cells 3 df.
Proof. by destruct s. Qed.

Lemma cells_app (c : nat) (df1 df2 : DataFrame) :
  cells c (df1 ++ df2) = cells c df1 ++ cells c df2.
Proof. unfold cells. by rewrite fmap_app. Qed.

Lemma methods_default (s : State) : cells 3 (default [] (_dataframe s)) = methods s.
Proof. unfold methods. by destruct (_dataframe s). Qed.

Lemma methods_after_append (s : State) (e : list signal) (fresh : list Method) :
  methods (set_emitted e
             (set_dataframe
                (Some (default [] (_dataframe s) ++ (method_row (bw_methods s) <$> fresh)))
                s))
  = methods s ++ (VMethod <$> fresh).
Proof.
  unfold methods.
  replace (_dataframe (set_emitted e (set_dataframe _ s)))
    with (Some (default [] (_dataframe s) ++ (method_row (bw_methods s) <$> fresh)))
    by (by destruct s).
  rewrite cells_app, cells_method_rows. by destruct (_dataframe s).
Qed.

Lemma run_include_methods (s : State) (new : list Method) :
  Forall (λ m, is_Some (bw_methods s !! m))
    (List.filter (λ m, negb (shows_method (methods s) m)) new) →
  include_methods new s
  = match List.filter (λ m, negb (shows_method (methods s) m)) new with
    | [] => (inr tt, s)
    | fresh =>
        (inr tt,
         set_emitted (emitted s ++ [updated; calculation_setup_changed])
           (set_dataframe
              (Some (default [] (_dataframe s) ++ (method_row (bw_methods s) <$> fresh)))
              s))
    end.
Proof.
  intros Hcat. unfold include_methods.
  rewrite run_bind. unfold gets at 1.
  destruct (run_method_rows _ s Hcat) as (ds & Hds & Hrows).
  rewrite run_bind, Hds.
  destruct (List.filter _ new) as [|m fresh]; destruct ds as [|d ds];
    try discriminate Hrows; [done|].
  run_state. rewrite Hrows. destruct s; simpl. by rewrite <- app_assoc.
Qed.

(** X11. [include_methods], when the catalog has every given method that the
    frame does not show yet, returns; [methods] then reads what it read
    before followed by those methods, in the order given (a method given
    twice is there twice); the two signals are emitted when there is such
    a method, and when there is none the state is what it was. This
    holds before any frame is set as well. *)
Theorem include_methods_appends_unshown (s : State) (new : list Method) :
  Forall (λ m, is_Some (bw_methods s !! m))
    (List.filter (λ m, negb (shows_method (methods s) m)) new) →
  ∃ (s' : State) (fresh : list Method),
    include_methods new s = (inr tt, s')
    ∧ fresh = List.filter (λ m, negb (shows_method (methods s) m)) new
    ∧ (∀ m, m ∈ fresh ↔ m ∈ new ∧ VMethod m ∉ methods s)
    ∧ methods s' = methods s ++ (VMethod <$> fresh)
    ∧ emitted s'
      = emitted s ++ match fresh with
                     | [] => []
                     | _ :: _ => [updated; calculation_setup_changed]
                     end
    ∧ (fresh = [] → s' = s).
Proof.
  intros Hcat. rewrite (run_include_methods s new Hcat).
  remember (List.filter (λ m, negb (shows_method (methods s) m)) new) as fresh eqn:Hf.
  assert (Hfresh : ∀ m, m ∈ fresh ↔ m ∈ new ∧ VMethod m ∉ methods s).
  { intros m. rewrite Hf, list_elem_of_In, filter_In, <- list_elem_of_In.
    by rewrite negb_true_iff, <- not_true_iff_false, shows_method_spec. }
  destruct fresh as [|m rest].
  - exists s, []. rewrite !app_nil_r. by destruct s.
  - eexists _, (m :: rest). split; [reflexivity|]. split; [done|]. split; [done|].
    split; [|by destruct s]. apply methods_after_append.
Qed.

(** X12. [include_methods] with a method that the frame does not show and the
    catalog does not have raises [KeyError] and leaves everything as it
    was: none of the given methods is added. *)
Theorem include_methods_unknown_method (s : State) (new : list Method)
    (known : list Method) (m : Method) (rest : list Method) :
  List.filter (λ m, negb (shows_method (methods s) m)) new = known ++ m :: rest →
  Forall (λ m, is_Some (bw_methods s !! m)) known →
  bw_methods s !! m = None →
  include_methods new s = (inl (KeyError (repr_tuple m)), s).
Proof.
  intros Hf Hknown Hm. unfold include_methods.
  rewrite run_bind. unfold gets at 1. rewrite Hf.
  by rewrite run_bind, (run_method_rows_stale known m rest s Hknown Hm).
Qed.

Lemma filter_none {A} (f : A → bool) (l : list A) :
  Forall (λ x, f x = false) l → List.filter f l = [].
Proof.
  induction 1 as [|x l Hx _ IH]; [done|]. simpl. by rewrite Hx.
Qed.

(** X13. Including the same methods a second time adds nothing: the second
    call returns with the state the first one left, and emits nothing. *)
Theorem include_methods_twice (s : State) (new : list Method) :
  Forall (λ m, is_Some (bw_methods s !! m))
    (List.filter (λ m, negb (shows_method (methods s) m)) new) →
  ∃ s1 : State,
    include_methods new s = (inr tt, s1)
    ∧ include_methods new s1 = (inr tt, s1).
Proof.
  intros Hcat. rewrite (run_include_methods s new Hcat).
  remember (List.filter (λ m, negb (shows_method (methods s) m)) new) as fresh eqn:Hf.
  assert (Hshown : ∀ s1 : State,
            methods s1 = methods s ++ (VMethod <$> fresh) →
            List.filter (λ m, negb (shows_method (methods s1) m)) new = []).
  { intros s1 Hs1. apply filter_none, Forall_forall. intros m Hin.
    apply negb_false_iff, shows_method_spec. rewrite Hs1, elem_of_app.
    destruct (shows_method (methods s) m) eqn:Hm.
    - left. by apply shows_method_spec.
    - right. apply list_elem_of_fmap. exists m. split; [done|].
      rewrite Hf. apply list_elem_of_In, filter_In.
      split; [by apply list_elem_of_In|]. by rewrite Hm. }
  destruct fresh as [|m rest].
  - exists s. split; [done|].
    unfold include_methods. rewrite run_bind. unfold gets at 1.
    by rewrite <- Hf.
  - eexists. split; [reflexivity|].
    unfold include_methods. rewrite run_bind. unfold gets at 1.
    rewrite Hshown; [done|]. apply methods_after_append.
Qed.

(** *** [delete_rows] *)

Section Kept.
Context {A : Type}.
Implicit Types (df : list A) (labels : list Z).

Lemma kept_from_sublist i labels df : kept_from i labels df `sublist_of` df.
Proof.
  revert i. induction df as [|r df IH]; intros i; simpl; [done|].
  case_bool_decide; [by apply sublist_cons | by apply sublist_skip].
Qed.

Lemma kept_from_elem i labels df r :
  r ∈ kept_from i labels df ↔ ∃ k, df !! k = Some r ∧ Z.of_nat (i + k) ∉ labels.
Proof.
  revert i. induction df as [|r' df IH]; intros i; simpl.
  - split; [by intros ?%elem_of_nil|].
    intros (k & Hk & _). by rewrite lookup_nil in Hk.
  - assert (Hshift : ∀ k, Z.of_nat (S i + k) = Z.of_nat (i + S k)) by (intros; lia).
    case_bool_decide as Hi; rewrite ?elem_of_cons, IH; split.
    + intros (k & Hk & Hnot). exists (S k). split; [done|]. by rewrite <- Hshift.
    + intros ([|k] & Hk & Hnot).
      * rewrite Nat.add_0_r in Hnot. done.
      * exists k. split; [done|]. by rewrite Hshift.
    + intros [->|(k & Hk & Hnot)].
      * exists 0. split; [done|]. by rewrite Nat.add_0_r.
      * exists (S k). split; [done|]. by rewrite <- Hshift.
    + intros ([|k] & Hk & Hnot).
      * left. simpl in Hk. congruence.
      * right. exists k. split; [done|]. by rewrite Hshift.
Qed.

Lemma kept_from_nil i df : kept_from i [] df = df.
Proof.
  revert i. induction df as [|r df IH]; intros i; cbn [kept_from]; [done|].
  rewrite bool_decide_false by (by intros ?%elem_of_nil). by rewrite IH.
Qed.

Lemma kept_from_below i labels df :
  Forall (λ l, (l < Z.of_nat i)%Z) labels → kept_from i labels df = df.
Proof.
  intros Hl. revert i Hl. induction df as [|r df IH]; intros i Hl; cbn [kept_from]; [done|].
  rewrite bool_decide_false.
  - rewrite IH; [done|]. eapply Forall_impl; [exact Hl|]. simpl. lia.
  - intros Hin. rewrite Forall_forall in Hl. specialize (Hl _ Hin). lia.
Qed.

Lemma kept_from_single i k df :
  kept_from i [Z.of_nat (i + k)] df = delete k df.
Proof.
  revert i k. induction df as [|r df IH]; intros i k; cbn [kept_from]; [by destruct k|].
  destruct k as [|k].
  - rewrite Nat.add_0_r, bool_decide_true by apply list_elem_of_here.
    apply kept_from_below. repeat constructor. lia.
  - rewrite bool_decide_false by (rewrite list_elem_of_singleton; lia).
    cbn [delete list_delete]. f_equal.
    replace (i + S k) with (S i + k) by lia. apply IH.
Qed.



Lemma drop_labels_in_range df labels :
  Forall (λ l, (0 ≤ l < Z.of_nat (length df))%Z) labels →
  drop_labels df labels = inr (kept_from 0 labels df).
Proof.
  intros Hl. unfold drop_labels.
  replace (forallb _ labels) with true; [done|].
  symmetry. apply forallb_forall. intros l Hin.
  apply bool_decide_eq_true. rewrite Forall_forall in Hl.
  by apply Hl, list_elem_of_In.
Qed.

Lemma drop_labels_out_of_range df labels l :
  l ∈ labels → ¬ (0 ≤ l < Z.of_nat (length df))%Z →
  drop_labels df labels = inl (KeyError "not found in axis").
Proof.
  intros Hin Hl. unfold drop_labels.
  destruct (forallb _ labels) eqn:Hall; [|done].
  rewrite forallb_forall in Hall. apply list_elem_of_In, Hall in Hin.
  by apply bool_decide_eq_true in Hin.
Qed.

End Kept.

(** X14. [delete_rows] with rows of the frame returns; the new frame has the
    rows at the other positions, in their order (for a single row [i] it
    is the frame without its row [i], for no row at all the frame
    itself), and both signals are emitted whatever the rows were. *)
Theorem methods_delete_rows_drops_positions (s : State) (df : DataFrame) (rows : list Z) :
  _dataframe s = Some df →
  Forall (λ l, (0 ≤ l < Z.of_nat (length df))%Z) rows →
  ∃ df' : DataFrame,
    delete_rows rows s
    = (inr tt,
       set_emitted (emitted s ++ [updated; calculation_setup_changed])
         (set_dataframe (Some df') s))
    ∧ df' `sublist_of` df
    ∧ (∀ r, r ∈ df' ↔ ∃ k, df !! k = Some r ∧ Z.of_nat k ∉ rows)
    ∧ (∀ i, rows = [Z.of_nat i] → df' = delete i df)
    ∧ (rows = [] → df' = df).
Proof.
  intros Hdf Hrows. exists (kept_from 0 rows df). split; [|split; [|split; [|split]]].
  - unfold delete_rows. run_state. rewrite Hdf, (drop_labels_in_range _ _ Hrows).
    destruct s; simpl. by rewrite <- app_assoc.
  - apply kept_from_sublist.
  - intros r. apply kept_from_elem.
  - intros i ->. apply (kept_from_single 0 i).
  - intros ->. apply kept_from_nil.
Qed.

(** X15. [delete_rows] with a row that the frame does not have raises
    [KeyError]: no row is removed and no signal is emitted. *)
Theorem methods_delete_rows_unknown_row (s : State) (df : DataFrame) (rows : list Z) (l : Z) :
  _dataframe s = Some df →
  l ∈ rows →
  ¬ (0 ≤ l < Z.of_nat (length df))%Z →
  delete_rows rows s = (inl (KeyError "not found in axis"), s).
Proof.
  intros Hdf Hin Hl. unfold delete_rows. run_state.
  by rewrite Hdf, (drop_labels_out_of_range _ _ _ Hin Hl).
Qed.

End Methods.

(** ** [CSActivityModel]: loading, synchronising, subscriptions *)

Section ActivitiesMore.

Import CSActivityModel.

Variable names : string → string.

Ltac run_state :=
  unfold the_dataframe, emit, log_error;
  unfold mbind, M_bind, bind, mret, M_ret, ret, gets, modify, lift, raise;
  cbn beta iota.

(** [sync] before a setup is loaded (no current setup, or the empty
    name) raises the assertion and changes nothing. *)
Theorem sync_requires_loaded_setup (s : State) :
  current_cs s = None ∨ current_cs s = Some "" →
  sync names s = (inl (AssertionError "CS Model not yet loaded"), s).
Proof. intros [H|H]; unfold sync; run_state; by rewrite H. Qed.

(** [load] of a name that the store does not have raises the assertion
    before anything is touched: the subscriptions, the current setup and
    the frame stay. *)
Theorem load_unknown_setup (s : State) (name : string) :
  cs_controller s !! name = None →
  load names name s
  = (inl (AssertionError "Given calculation setup does not exist."), s).
Proof.
  intros Hcs. unfold load. run_state. rewrite Hcs.
  by rewrite bool_decide_false by (by intros [? ?]).
Qed.

Lemma run_load (s : State) (name : string) (cs : CalculationSetup) :
  cs_controller s !! name = Some cs →
  name ≠ "" →
  let reg := activity_controller s in
  let items := concat (inv cs) in
  load names name s
  = (inr tt,
     mkState (cs_controller s) reg (bw_methods s) (emitted s ++ [updated])
       (logged s ++ (log_line (Some name) <$> failing reg items))
       (foldl (λ conns act, disconnect act conns) (connections s) (_activities s)
          ++ resolving reg items)
       (Some (dropna (row_for names reg <$> items)))
       (Some name) 6 (resolving reg items)).
Proof.
  intros Hcs Hname reg items. unfold load.
  rewrite run_bind. unfold gets at 1. rewrite Hcs.
  rewrite bool_decide_true by eauto.
  rewrite run_bind. unfold mret at 1, M_ret, ret.
  rewrite run_bind. unfold gets at 1.
  rewrite run_bind, run_disconnects.
  rewrite run_bind. unfold modify at 1.
  rewrite run_bind. unfold modify at 1.
  rewrite run_sync by (simpl; by rewrite bool_decide_false).
  subst reg items. destruct s as [store areg cat em lg conns d cur kc acts].
  cbn [_dataframe logged emitted set_emitted set_key_col set_dataframe
       cs_controller activity_controller current_cs after_rows set_activities
       set_connections set_logged set_current_cs connections _activities] in *.
  change (Some name ≫= λ i : string, store !! i) with (store !! name).
  rewrite Hcs. reflexivity.
Qed.




Lemma disconnect_all (acts : list Key) :
  foldl (λ conns act, disconnect act conns) acts acts = [].
Proof.
  induction acts as [|act acts IH]; [done|]. simpl.
  by rewrite decide_True.
Qed.

(** X17. [load] renews the subscriptions: when [sync] was connected once to
    each tracked activity, after [load] the tracked activities and the
    connections are exactly the activities of the keys of the new setup
    that resolve, one for each such functional unit. *)
Theorem load_renews_subscriptions (s : State) (name : string) (cs : CalculationSetup) :
  cs_controller s !! name = Some cs →
  name ≠ "" →
  connections s = _activities s →
  ∃ s' : State,
    load names name s = (inr tt, s')
    ∧ _activities s' = resolving (activity_controller s) (concat (inv cs))
    ∧ connections s' = _activities s'.
Proof.
  intros Hcs Hname Hconn. rewrite (run_load s name cs Hcs Hname).
  eexists. split; [reflexivity|]. cbn [_activities connections].
  split; [done|]. by rewrite Hconn, disconnect_all.
Qed.

Lemma run_sync_fields (s : State) (name : string) :
  current_cs s = Some name →
  name ≠ "" →
  let reg := activity_controller s in
  let items :=
    concat (match cs_controller s !! name with
            | Some cs => inv cs
            | None => []
            end) in
  sync names s
  = (inr tt,
     mkState (cs_controller s) reg (bw_methods s) (emitted s ++ [updated])
       (logged s ++ (log_line (Some name) <$> failing reg items))
       (connections s ++ resolving reg items)
       (Some (dropna (row_for names reg <$> items)))
       (Some name) 6 (_activities s ++ resolving reg items)).
Proof.
  intros Hcur Hname reg items.
  rewrite run_sync by (rewrite Hcur; simpl; by rewrite bool_decide_false).
  subst reg items. destruct s as [store areg cat em lg conns d cur kc acts].
  cbn [_dataframe logged emitted set_emitted set_key_col set_dataframe
       cs_controller activity_controller current_cs after_rows set_activities
       set_connections set_logged set_current_cs connections _activities bw_methods] in *.
  subst cur. reflexivity.
Qed.

(** X18. [sync] does not disconnect anything: it connects and tracks the
    activities of the keys of the current setup that resolve, one for
    each such functional unit and in their order, on top of what was
    connected and tracked; a second [sync] gives the frame of the first
    and connects and tracks every one of them once more. *)
Theorem sync_again_adds_subscriptions (s : State) (name : string) :
  current_cs s = Some name →
  name ≠ "" →
  let fus := match cs_controller s !! name with
             | Some cs => inv cs
             | None => []
             end in
  let tracked := resolving (activity_controller s) (concat fus) in
  ∃ s1 s2 : State,
    sync names s = (inr tt, s1)
    ∧ sync names s1 = (inr tt, s2)
    ∧ _dataframe s2 = _dataframe s1
    ∧ _activities s1 = _activities s ++ tracked
    ∧ connections s1 = connections s ++ tracked
    ∧ _activities s2 = _activities s ++ tracked ++ tracked
    ∧ connections s2 = connections s ++ tracked ++ tracked
    ∧ (∀ k, k ∈ tracked
            ↔ ∃ v, (k, v) ∈ concat fus ∧ is_Some (resolve (activity_controller s) k)).
Proof.
  intros Hcur Hname fus tracked.
  pose proof (run_sync_fields s name Hcur Hname) as H1. cbv zeta in H1.
  set (reg := activity_controller s) in *.
  fold fus in H1.
  set (s1 := mkState _ _ _ _ _ _ _ _ _ _) in H1.
  pose proof (run_sync_fields s1 name eq_refl Hname) as H2. cbv zeta in H2.
  exists s1. eexists.
  split; [exact H1|]. split; [exact H2|].
  cbn [_dataframe _activities connections]. subst s1.
  cbn [_dataframe _activities connections cs_controller activity_controller].
  fold fus. fold tracked.
  rewrite <- !app_assoc. repeat split.
  - subst tracked. unfold resolving. rewrite list_elem_of_omap.
    intros ([k' v] & Hin & Hk). simpl in Hk.
    destruct (resolve reg k') as [act|] eqn:Hres; [|discriminate Hk].
    injection Hk as <-. exists v. split; [done|]. by eexists.
  - intros (v & Hin & [act Hres]). subst tracked. unfold resolving.
    apply list_elem_of_omap. exists (k, v). split; [done|]. simpl. by rewrite Hres.
Qed.

Lemma after_rows_view (items : list (Key * float)) (s : State) :
  _dataframe (after_rows items s) = _dataframe s
  ∧ emitted (after_rows items s) = emitted s
  ∧ cs_controller (after_rows items s) = cs_controller s.
Proof. by destruct s. Qed.

(** The comprehension of [include_activities] over units of which one is
    empty: it raises at the first empty one, the frame and the signals
    being what they were. *)
Lemma run_units_with_empty (fus : list FunctionalUnit) (s : State) :
  [] ∈ fus →
  ∃ s' : State,
    list_comp fus
      (λ fu, match fu with
             | (k0, v0) :: _ => build_row names k0 v0
             | [] => raise (ValueError "not enough values to unpack (expected 2, got 0)")
             end) s
    = (inl (ValueError "not enough values to unpack (expected 2, got 0)"), s')
    ∧ _dataframe s' = _dataframe s
    ∧ emitted s' = emitted s.
Proof.
  revert s. induction fus as [|fu fus IH]; intros s Hin.
  - by apply elem_of_nil in Hin.
  - destruct fu as [|[k v] fu].
    + exists s. by simpl.
    + apply elem_of_cons in Hin as [Hin|Hin]; [done|].
      destruct (run_build_row names k v s) as (d & Hd & _).
      destruct (IH (after_rows [(k, v)] s) Hin) as (s' & Hs' & Hdf & Hem).
      exists s'. simpl. unfold bind at 1. rewrite Hd.
      unfold bind at 1. rewrite Hs'.
      destruct (after_rows_view [(k, v)] s) as (Hdf' & Hem' & _).
      split; [done|]. split; congruence.
Qed.

(** X19. [include_activities] with an empty mapping among the new units
    raises [ValueError]: no row is added and no signal is emitted,
    whatever the other units are. *)
Theorem include_activities_empty_unit (s : State) (df : DataFrame)
    (new : list FunctionalUnit) :
  _dataframe s = Some df →
  [] ∈ new →
  ∃ s' : State,
    include_activities names new s
    = (inl (ValueError "not enough values to unpack (expected 2, got 0)"), s')
    ∧ _dataframe s' = Some df
    ∧ emitted s' = emitted s.
Proof.
  intros Hdf Hin. unfold include_activities.
  rewrite (run_bind_ok _ _ _ _ _ (run_the_dataframe _ _ Hdf)).
  rewrite run_bind, column_key. unfold lift at 1. cbn beta iota.
  assert (Hin' : [] ∈ List.filter (isdisjoint (cells 6 df)) new).
  { apply list_elem_of_In, filter_In. split; [by apply list_elem_of_In|done]. }
  destruct (run_units_with_empty _ s Hin') as (s' & Hs' & Hdf' & Hem).
  exists s'. rewrite run_bind, Hs'. split; [done|]. split; congruence.
Qed.

(** *** [delete_rows] *)

(** The key cells of [rows], for rows of the frame. *)
Lemma run_key_cells (df : DataFrame) (rows : list Z) (s : State) :
  Forall (λ l, (0 ≤ l < Z.of_nat (length df))%Z) rows →
  list_comp rows (λ row, lift (at_cell df row 6 (VFloat nan))) s
  = (inr ((λ row, default (VFloat nan) (df !! Z.to_nat row ≫= (.!! 6))) <$> rows), s).
Proof.
  induction 1 as [|row rows Hrow _ IH]; [done|].
  simpl. unfold bind at 1, lift at 1, at_cell at 1.
  rewrite bool_decide_true by done. unfold bind at 1. by rewrite IH.
Qed.



(** X21. A row whose activity has left the registry cannot be deleted:
    [delete_rows] on it raises [DoesNotExist] and changes nothing. *)
Theorem activities_delete_row_of_missing_activity
    (s : State) (df : DataFrame) (i : nat) (r : Row) (k : Key) :
  _dataframe s = Some df →
  df !! i = Some r →
  r !! 6 = Some (VKey k) →
  activity_controller s !! k = None →
  delete_rows [Z.of_nat i] s = (inl DoesNotExist, s).
Proof.
  intros Hdf Hr Hk Hreg. pose proof (lookup_lt_Some _ _ _ Hr) as Hlt.
  unfold delete_rows.
  rewrite (run_bind_ok _ _ _ _ _ (run_the_dataframe _ _ Hdf)).
  rewrite run_bind, (run_key_cells df [Z.of_nat i] s) by (repeat constructor; lia).
  cbn [fmap list_fmap]. rewrite Nat2Z.id, Hr. cbn [mbind option_bind]. rewrite Hk.
  cbn [default]. rewrite run_bind. cbn [for_each]. unfold bind at 1.
  rewrite run_bind. unfold gets at 1. cbn [id]. cbv beta iota. by rewrite Hreg.
Qed.

End ActivitiesMore.

(** ** [relocateRow]: bounds and round trips *)

Section Relocations.

Import CSGenericModel.

Ltac run_state :=
  unfold the_dataframe, emit, log_error;
  unfold mbind, M_bind, bind, mret, M_ret, ret, gets, modify, lift, raise;
  cbn beta iota.

Lemma set_dataframe_same (s : State) (df : DataFrame) :
  _dataframe s = Some df → set_dataframe (Some df) s = s.
Proof. intros H. destruct s; simpl in *. by subst. Qed.

(** X22. [relocateRow] from a position that the frame does not have raises
    [IndexError] before anything is changed or emitted. *)
Theorem relocateRow_source_out_of_range (s : State) (df : DataFrame) (i j : Z) :
  _dataframe s = Some df →
  ¬ (- Z.of_nat (length df) ≤ i < Z.of_nat (length df))%Z →
  relocateRow i j s = (inl IndexError, s).
Proof.
  intros Hdf Hi. unfold relocateRow. run_state. rewrite Hdf.
  unfold iloc. by rewrite bool_decide_false by done.
Qed.

(** X23. [relocateRow] to the position after the last row, which [np.insert]
    accepts, puts the row at the end. *)
Theorem relocateRow_to_the_end (s : State) (df : DataFrame) (i : nat) (x : Row) :
  _dataframe s = Some df →
  df !! i = Some x →
  relocateRow (Z.of_nat i) (Z.of_nat (length df)) s
  = (inr tt,
     set_emitted (emitted s ++ [updated; calculation_setup_changed])
       (set_dataframe (Some (delete i df ++ [x])) s)).
Proof.
  intros Hdf Hx. pose proof (lookup_lt_Some _ _ _ Hx) as Hlt.
  rewrite (relocateRow_down s df i (length df) x Hdf Hx Hlt) by done.
  rewrite take_ge, drop_ge by done. by rewrite delete_app_l by done.
Qed.

Section Lists.
Context {A : Type}.
Implicit Types (l : list A) (x : A).

Lemma put_back l i x :
  l !! i = Some x → take i (delete i l) ++ x :: drop i (delete i l) = l.
Proof.
  intros Hx. pose proof (lookup_lt_Some _ _ _ Hx) as Hlt.
  rewrite delete_take_drop.
  rewrite take_app_length' by (rewrite length_take; lia).
  rewrite drop_app_length' by (rewrite length_take; lia).
  by rewrite <- (drop_S _ _ _ Hx), take_drop.
Qed.

(** Inserting a row before the position after its own and removing the
    original gives the list back. *)
Lemma insert_after_self l i x :
  l !! i = Some x → delete i (take (S i) l ++ x :: drop (S i) l) = l.
Proof.
  intros Hx. pose proof (lookup_lt_Some _ _ _ Hx) as Hlt.
  rewrite delete_app_l by (rewrite length_take; lia).
  rewrite (take_S_r _ _ _ Hx).
  assert (Hlen : length (take i l) = i) by (rewrite length_take; lia).
  rewrite <- Hlen at 1. rewrite delete_middle, app_nil_r.
  by apply take_drop_middle.
Qed.

Lemma delete_take_le l i j :
  j ≤ i → i < length l → delete j (take (S i) l) = take i (delete j l).
Proof.
  revert i j. induction l as [|y l IH]; intros i j Hji Hi; simpl in *; [lia|].
  destruct j as [|j]; simpl.
  - by destruct i.
  - destruct i as [|i]; [lia|]. simpl. f_equal. apply IH; lia.
Qed.

Lemma drop_delete_le l i j :
  j ≤ i → drop i (delete j l) = drop (S i) l.
Proof.
  revert i j. induction l as [|y l IH]; intros i j Hji; simpl.
  - by destruct i, j.
  - destruct j as [|j]; simpl; [done|].
    destruct i as [|i]; [lia|]. simpl. apply IH. lia.
Qed.

Lemma up_then_down l i j x :
  l !! i = Some x → j < i →
  let l1 := take j (delete i l) ++ x :: drop j (delete i l) in
  delete j (take (S i) l1 ++ x :: drop (S i) l1) = l.
Proof.
  intros Hx Hji l1. pose proof (lookup_lt_Some _ _ _ Hx) as Hlt.
  destruct (move_up_shape l i j x Hx Hji) as (_ & _ & H3 & H4).
  fold l1 in H3, H4.
  assert (Hlen1 : length l1 = length l) by exact (Permutation_length H4).
  rewrite delete_app_l by (rewrite length_take; lia).
  rewrite delete_take_le by lia.
  rewrite <- (drop_delete_le l1 i j) by lia.
  rewrite H3. by apply put_back.
Qed.

Lemma down_then_up l i j x :
  l !! i = Some x → i < j → j ≤ length l →
  let l1 := delete i (take j l ++ x :: drop j l) in
  take i (delete (j - 1) l1) ++ x :: drop i (delete (j - 1) l1) = l.
Proof.
  intros Hx Hij Hj l1.
  destruct (move_down_shape l i j x Hx Hij Hj) as (_ & _ & H3 & _).
  fold l1 in H3. rewrite H3. by apply put_back.
Qed.

End Lists.

(** X24. Moving a row to the position just after its own changes nothing in
    the frame: the row is inserted behind itself and the original
    removed. The two signals are emitted all the same. *)
Theorem relocateRow_one_down_is_noop (s : State) (df : DataFrame) (i : nat) (x : Row) :
  _dataframe s = Some df →
  df !! i = Some x →
  relocateRow (Z.of_nat i) (Z.of_nat i + 1) s
  = (inr tt, set_emitted (emitted s ++ [updated; calculation_setup_changed]) s).
Proof.
  intros Hdf Hx. pose proof (lookup_lt_Some _ _ _ Hx) as Hlt.
  replace (Z.of_nat i + 1)%Z with (Z.of_nat (S i)) by lia.
  rewrite (relocateRow_down s df i (S i) x Hdf Hx) by lia.
  rewrite (insert_after_self _ _ _ Hx). destruct s; simpl in *. by subst.
Qed.

Lemma run_relocateRow_same (s : State) (df : DataFrame) (i : Z) :
  _dataframe s = Some df →
  (- Z.of_nat (length df) ≤ i < Z.of_nat (length df))%Z →
  relocateRow i i s
  = (inr tt, set_emitted (emitted s ++ [updated; calculation_setup_changed]) s).
Proof.
  intros Hdf Hi. destruct (iloc_in_range df i Hi) as [x Hx].
  unfold relocateRow. run_state. rewrite Hdf, Hx.
  rewrite !bool_decide_false by lia.
  destruct s; simpl. by rewrite <- app_assoc.
Qed.

(** X25. A move can be undone: after [relocateRow(i, j)] for distinct
    positions, moving the row back (from [j] to [i + 1] after a move up,
    from [j - 1] to [i] after a move down) gives the frame as it was. *)
Theorem relocateRow_undo (s : State) (df : DataFrame) (i j : nat) :
  _dataframe s = Some df →
  i < length df →
  j < length df →
  i ≠ j →
  let back := if bool_decide (j < i)
              then (Z.of_nat j, Z.of_nat i + 1)%Z
              else (Z.of_nat j - 1, Z.of_nat i)%Z in
  (relocateRow (Z.of_nat i) (Z.of_nat j);; relocateRow back.1 back.2) s
  = (inr tt,
     set_emitted (emitted s ++ [updated; calculation_setup_changed;
                                updated; calculation_setup_changed]) s).
Proof.
  intros Hdf Hi Hj Hne back.
  destruct (lookup_lt_is_Some_2 df i Hi) as [x Hx].
  rewrite run_bind. subst back. case_bool_decide as Hji.
  - (* up, then down again *)
    rewrite (relocateRow_up s df i j x Hdf Hx Hji). cbn [fst snd].
    destruct (move_up_shape df i j x Hx Hji) as (H1 & _ & _ & H4).
    pose proof (Permutation_length H4) as Hlen1.
    replace (Z.of_nat i + 1)%Z with (Z.of_nat (S i)) by lia.
    rewrite (relocateRow_down _ (take j (delete i df) ++ x :: drop j (delete i df))
               j (S i) x); [|by destruct s|exact H1|lia|unfold DataFrame, Row in *; lia].
    pose proof (up_then_down df i j x Hx Hji) as Hback.
    unfold DataFrame, Row in *. rewrite Hback.
    destruct s; simpl in *. subst. by rewrite <- !app_assoc.
  - (* down, then up again *)
    assert (Hij : i < j) by lia.
    rewrite (relocateRow_down s df i j x Hdf Hx Hij) by lia. cbn [fst snd].
    destruct (move_down_shape df i j x Hx Hij) as (H1 & _ & _ & H4); [lia|].
    pose proof (Permutation_length H4) as Hlen1.
    replace (Z.of_nat j - 1)%Z with (Z.of_nat (j - 1)) by lia.
    destruct (decide (i = j - 1)) as [Heq|Hne'].
    + (* the row stood just before [j]: the frame has not changed, and
         the way back is a move onto itself *)
      rewrite <- Heq.
      rewrite run_relocateRow_same
        with (df := delete i (take j df ++ x :: drop j df));
        [|by destruct s|lia].
      assert (Hsame : delete i (take j df ++ x :: drop j df) = df).
      { replace j with (S i) by lia. by apply insert_after_self. }
      unfold DataFrame, Row in *. rewrite Hsame.
      destruct s; simpl in *. subst. by rewrite <- !app_assoc.
    + rewrite (relocateRow_up _ (delete i (take j df ++ x :: drop j df))
                 (j - 1) i x) by first [by destruct s | exact H1 | lia].
      pose proof (down_then_up df i j x Hx Hij ltac:(lia)) as Hback.
      unfold DataFrame, Row in *. rewrite Hback.
      destruct s; simpl in *. subst. by rewrite <- !app_assoc.
Qed.

(** X26. A negative source that [iloc] accepts is no label of the frame: with
    a target from 0 on, the row is copied to the target and the removal
    of the original raises [KeyError]. The frame keeps the copy, one row
    longer than before, and no signal is emitted. *)
Theorem relocateRow_negative_source_duplicates
    (s : State) (df : DataFrame) (i : Z) (j : nat) (x : Row) :
  _dataframe s = Some df →
  (- Z.of_nat (length df) ≤ i < 0)%Z →
  j ≤ length df →
  df !! Z.to_nat (i + Z.of_nat (length df)) = Some x →
  relocateRow i (Z.of_nat j) s
  = (inl (KeyError "not found in axis"),
     set_dataframe (Some (take j df ++ x :: drop j df)) s).
Proof.
  intros Hdf Hi Hj Hx. unfold relocateRow. run_state. rewrite Hdf.
  unfold DataFrame, Row in *.
  unfold iloc. rewrite bool_decide_true by lia.
  rewrite (bool_decide_true (i < 0)%Z) by lia. rewrite Hx.
  rewrite bool_decide_false by lia. rewrite bool_decide_true by lia.
  rewrite np_insert_nonneg by done.
  unfold drop_label. by rewrite bool_decide_false by lia.
Qed.

End Relocations.

(** ** [get_key] *)

Section Keys.

Import CSActivityModel.

Variable names : string → string.

Ltac run_state :=
  unfold the_dataframe, emit, log_error;
  unfold mbind, M_bind, bind, mret, M_ret, ret, gets, modify, lift, raise;
  cbn beta iota.

Lemma resolved_rows_units (reg : gmap Key Activity) (items : list (Key * float)) :
  resolved_rows names reg items = row_for names reg <$> resolved_units reg items.
Proof.
  unfold resolved_rows, resolved_units, row_for.
  induction items as [|ka items IH]; [done|].
  cbn [omap list_omap List.filter].
  destruct (resolve reg ka.1) as [act|] eqn:Hr.
  - rewrite bool_decide_true by eauto. cbn [fmap option_fmap option_map].
    rewrite fmap_cons, Hr. by f_equal.
  - by rewrite bool_decide_false by (by intros [? ?]).
Qed.

(** After [load], [get_key] at the position of a shown functional unit
    returns its key (where no resolved row has a missing cell). *)
Theorem load_then_get_key (s : State) (name : string) (cs : CalculationSetup)
    (i : nat) (k : Key) (a : float) :
  cs_controller s !! name = Some cs →
  name ≠ "" →
  Forall (λ r, forallb (λ v, negb (isna v)) r = true)
    (resolved_rows names (activity_controller s) (concat (inv cs))) →
  resolved_units (activity_controller s) (concat (inv cs)) !! i = Some (k, a) →
  ∃ s' : State,
    load names name s = (inr tt, s')
    ∧ get_key (Z.of_nat i) s' = (inr (VKey k), s').
Proof.
  intros Hcs Hname Hrows Hi.
  assert (Hiat : iat (dropna (row_for names (activity_controller s) <$> concat (inv cs)))
                   (Z.of_nat i) 6 = inr (VKey k)).
  { rewrite dropna_rows, filter_all by exact Hrows.
    rewrite resolved_rows_units.
    assert (Hrow : (row_for names (activity_controller s)
                      <$> resolved_units (activity_controller s) (concat (inv cs))) !! i
                   = Some (row_for names (activity_controller s) (k, a)))
      by (by rewrite list_lookup_fmap, Hi).
    unfold iat. erewrite iloc_nonneg by exact Hrow.
    assert (Hres : is_Some (resolve (activity_controller s) k)).
    { apply list_elem_of_lookup_2 in Hi.
      apply list_elem_of_In, filter_In in Hi as [_ Hi].
      by apply bool_decide_eq_true in Hi. }
    destruct Hres as [act Hact]. unfold row_for. cbn [fst snd]. by rewrite Hact. }
  rewrite (run_load names s name cs Hcs Hname).
  eexists. split; [reflexivity|].
  unfold get_key. run_state. cbn [_dataframe key_col].
  unfold DataFrame, Row in *. by rewrite Hiat.
Qed.

End Keys.

(** ** [ExchangeModify.onTrigger] *)

Section Exchanges.

Import ExchangeModify.

Lemma assigned_lookup_other (data_ : dict) (f : gmap string value) (k : string) :
  k ∉ data_.*1 →
  foldl (λ f kv, <[kv.1 := kv.2]> f) f data_ !! k = f !! k.
Proof.
  revert f. induction data_ as [|[k' v'] data_ IH]; intros f Hk; [done|].
  simpl in *. apply not_elem_of_cons in Hk as [Hne Hk].
  rewrite IH by done. by rewrite lookup_insert_ne.
Qed.

Lemma assigned_lookup (data_ : dict) (f : gmap string value) (k : string) (v : value) :
  NoDup data_.*1 → (k, v) ∈ data_ →
  foldl (λ f kv, <[kv.1 := kv.2]> f) f data_ !! k = Some v.
Proof.
  revert f. induction data_ as [|[k' v'] data_ IH]; intros f Hnd Hin.
  - by apply elem_of_nil in Hin.
  - simpl in *. apply NoDup_cons in Hnd as [Hk' Hnd].
    apply elem_of_cons in Hin as [Heq|Hin].
    + inversion Heq; subst. rewrite assigned_lookup_other by done.
      by rewrite lookup_insert_eq.
    + by apply IH.
Qed.

(** X27. After [onTrigger] the exchange has, for every key of [data_], the
    value given there, and for every other key the value it had; what
    is saved is exactly that. *)
Theorem onTrigger_assigns_and_saves (data_ : dict) (exchange : Exchange) :
  NoDup data_.*1 →
  let after := onTrigger data_ exchange in
  (∀ k v, (k, v) ∈ data_ → fields after !! k = Some v)
  ∧ (∀ k, k ∉ data_.*1 → fields after !! k = fields exchange !! k)
  ∧ saved after = fields after.
Proof.
  intros Hnd after. repeat split.
  - intros k v Hin. by apply assigned_lookup.
  - intros k Hk. by apply assigned_lookup_other.
Qed.

(** X28. Triggering the action a second time changes nothing more. *)
Theorem onTrigger_twice (data_ : dict) (exchange : Exchange) :
  NoDup data_.*1 →
  onTrigger data_ (onTrigger data_ exchange) = onTrigger data_ exchange.
Proof.
  intros Hnd. unfold onTrigger. cbn [fields].
  set (f1 := foldl _ (fields exchange) data_).
  assert (Hsame : foldl (λ f kv, <[kv.1 := kv.2]> f) f1 data_ = f1).
  { apply map_eq. intros k.
    destruct (decide (k ∈ data_.*1)) as [Hin|Hout].
    - apply list_elem_of_fmap in Hin as [[k' v] [-> Hin]]. simpl.
      rewrite (assigned_lookup data_ f1 k' v) by done.
      subst f1. by rewrite (assigned_lookup data_ _ k' v).
    - by rewrite assigned_lookup_other. }
  by rewrite Hsame.
Qed.

End Exchanges.

(** ** [ABTab.get_tab_name] *)

Section Tabs.

Import ABTab.

(** X29. [get_tab_name] finds the name of a widget exactly when the widget is
    a tab under that name and under no other; in every other case it
    returns no name. *)
Theorem get_tab_name_unique (tabs : list (string * Widget)) (obj : Widget) (name : string) :
  NoDup tabs.*1 →
  (get_tab_name tabs obj).1 = Some name
  ↔ (name, obj) ∈ tabs ∧ ∀ other, (other, obj) ∈ tabs → other = name.
Proof.
  intros Hnd. unfold get_tab_name.
  set (found := List.filter (λ no : string * Widget, bool_decide (no.2 = obj)) tabs).
  assert (Hfound : ∀ n, n ∈ found.*1 ↔ (n, obj) ∈ tabs).
  { intros n. subst found. rewrite list_elem_of_fmap. split.
    - intros ([n' o] & -> & Hin). apply list_elem_of_In, filter_In in Hin as [Hin Ho].
      apply bool_decide_eq_true in Ho. simpl in *. subst. by apply list_elem_of_In.
    - intros Hin. exists (n, obj). split; [done|].
      apply list_elem_of_In, filter_In. split; [by apply list_elem_of_In|].
      by apply bool_decide_eq_true. }
  assert (Hnd' : NoDup found.*1).
  { apply (sublist_NoDup _ tabs.*1); [exact Hnd|]. apply fmap_sublist. subst found.
    clear. induction tabs as [|t tabs IH]; simpl; [done|].
    destruct (bool_decide _); by constructor. }
  clearbody found. destruct (found.*1) as [|n [|n' l]] eqn:Hl; simpl.
  - split; [done|]. intros [Hin _]. apply Hfound in Hin. by apply elem_of_nil in Hin.
  - split.
    + intros [= <-]. split; [apply Hfound, list_elem_of_here|].
      intros other Ho. apply Hfound in Ho. by apply list_elem_of_singleton in Ho.
    + intros [Hin _]. apply Hfound, list_elem_of_singleton in Hin. by subst.
  - split; [done|]. intros [_ Huniq].
    assert (n = name) by (apply Huniq, Hfound, list_elem_of_here).
    assert (n' = name) by (apply Huniq, Hfound; do 2 constructor).
    subst. apply NoDup_cons in Hnd' as [Hn _]. destruct Hn. constructor.
Qed.

End Tabs.

(** ** [ProjectsMenu.populate] *)

Section Projects.

Import ProjectsMenu.

Variable AB_BW25 : bool.
Variable sorted : list Project → list Project.

Lemma populate_actions (ps : list Project) (acc : list QAction) :
  foldl (λ actions proj,
           let name := if negb (bw_25 proj) || AB_BW25
                       then name proj
                       else "[BW25] " +:+ name proj in
           actions ++ [mkQAction name (negb (bw_25 proj) || AB_BW25)])
        acc ps
  = acc ++ ((λ proj, mkQAction (if negb (bw_25 proj) || AB_BW25
                                then name proj
                                else "[BW25] " +:+ name proj)
                               (negb (bw_25 proj) || AB_BW25)) <$> ps).
Proof.
  revert acc. induction ps as [|p ps IH]; intros acc; simpl.
  - by rewrite app_nil_r.
  - rewrite IH. by rewrite <- app_assoc.
Qed.

(** X30. [populate] leaves exactly the actions made for the projects, one
    for each and in the sorted order, whatever the menu held before. An
    action is enabled unless its project is a BW25 project while
    [AB_BW25] is off; an enabled action has the name of its project as
    its text, which is what the menu hands to [set_current], and a
    disabled one has the "[BW25] " mark in front of the name. *)
Theorem populate_enabled_actions_carry_project_names
    (projects : list Project) (menu : list QAction) :
  (∀ ps, sorted ps ≡ₚ ps) →
  let actions := populate AB_BW25 sorted projects menu in
  let made (action : QAction) (proj : Project) :=
    isEnabled action = negb (bw_25 proj) || AB_BW25
    ∧ (isEnabled action = true → text action = name proj)
    ∧ (isEnabled action = false →
       text action = "[BW25] " +:+ name proj ∧ bw_25 proj = true ∧ AB_BW25 = false) in
  Forall2 made actions (sorted projects)
  ∧ length actions = length projects
  ∧ (∀ action, action ∈ actions → ∃ proj, proj ∈ projects ∧ made action proj)
  ∧ (∀ proj, proj ∈ projects → ∃ action, action ∈ actions ∧ made action proj).
Proof.
  intros sorted_Permutation actions made. subst actions.
  unfold populate. rewrite populate_actions. cbn [app].
  assert (Hall : Forall2 made
                   ((λ proj, mkQAction (if negb (bw_25 proj) || AB_BW25
                                        then name proj
                                        else "[BW25] " +:+ name proj)
                                       (negb (bw_25 proj) || AB_BW25)) <$> sorted projects)
                   (sorted projects)).
  { induction (sorted projects) as [|proj ps IH]; [constructor|].
    rewrite fmap_cons. constructor; [|exact IH].
    subst made. cbn [isEnabled text].
    destruct (bw_25 proj), AB_BW25; simpl; repeat split; try done; by intros [=]. }
  split; [exact Hall|].
  split; [by rewrite length_fmap, sorted_Permutation|].
  split.
  - intros action Hin. apply list_elem_of_lookup in Hin as [i Hi].
    destruct (Forall2_lookup_l _ _ _ _ _ Hall Hi) as (proj & Hp & Hm).
    exists proj. split; [|done].
    rewrite <- (sorted_Permutation projects). by eapply list_elem_of_lookup_2.
  - intros proj Hin. rewrite <- (sorted_Permutation projects) in Hin.
    apply list_elem_of_lookup in Hin as [i Hi].
    destruct (Forall2_lookup_r _ _ _ _ _ Hall Hi) as (action & Ha & Hm).
    exists action. split; [|done]. by eapply list_elem_of_lookup_2.
Qed.

End Projects.

(** ** The further properties at sample inputs *)

Lemma methods_sync_shows_ia_witness :
  ∃ s' : State,
    CSMethodsModel.sync (Some "CS3") Sample.methods_clean = (inr tt, s')
    ∧ current_cs s' = Some "CS3"
    ∧ _dataframe s'
      = Some (CSMethodsModel.method_row (bw_methods Sample.methods_clean)
                <$> ia Sample.clean_setup)
    ∧ CSMethodsModel.methods s' = VMethod <$> ia Sample.clean_setup
    ∧ emitted s' = emitted Sample.methods_clean ++ [updated]
    ∧ cs_controller s' = cs_controller Sample.methods_clean.
Proof.
  apply (methods_sync_shows_ia Sample.methods_clean "CS3" Sample.clean_setup).
  - discriminate.
  - reflexivity.
  - repeat constructor; by eexists.
Defined.

Lemma methods_sync_stale_method_witness :
  CSMethodsModel.sync (Some "CS1") Sample.methods_idle
  = (inl (KeyError "('old',)"),
     set_current_cs (Some "CS1") Sample.methods_idle).
Proof.
  apply (methods_sync_stale_method Sample.methods_idle "CS1"
           (mkCS [] [["old"]; ["IPCC"; "GWP100"]; ["gone"]; ["gone"]; ["ReCiPe"; "water"]])
           [] ["old"] [["IPCC"; "GWP100"]; ["gone"]; ["gone"]; ["ReCiPe"; "water"]]).
  - discriminate.
  - reflexivity.
  - reflexivity.
  - constructor.
  - reflexivity.
Defined.

Lemma update_cs_named_filters_and_shows_witness :
  ∃ (s' : State) (kept : list Method),
    CSMethodsModel.update_cs (Some "CS2") Sample.methods_idle = (inr tt, s')
    ∧ kept = List.filter (λ m, bool_decide (is_Some (bw_methods Sample.methods_idle !! m)))
               (ia (mkCS [] [["gone"]; ["ReCiPe"; "water"]; ["old"]]))
    ∧ cs_controller s' !! "CS2"
      = Some (mkCS (inv (mkCS [] [["gone"]; ["ReCiPe"; "water"]; ["old"]])) kept)
    ∧ (∀ other, other ≠ "CS2" →
         cs_controller s' !! other = cs_controller Sample.methods_idle !! other)
    ∧ current_cs s' = Some "CS2"
    ∧ CSMethodsModel.methods s' = VMethod <$> kept
    ∧ emitted s' = emitted Sample.methods_idle ++ [updated].
Proof.
  apply (update_cs_named_filters_and_shows Sample.methods_idle "CS2"
           (mkCS [] [["gone"]; ["ReCiPe"; "water"]; ["old"]])).
  - discriminate.
  - reflexivity.
Defined.

Lemma update_cs_named_twice_witness :
  ∃ s1 : State,
    CSMethodsModel.update_cs (Some "CS2") Sample.methods_idle = (inr tt, s1)
    ∧ CSMethodsModel.update_cs (Some "CS2") s1
      = (inr tt, set_emitted (emitted s1 ++ [updated]) s1).
Proof.
  apply (update_cs_named_twice Sample.methods_idle "CS2"
           (mkCS [] [["gone"]; ["ReCiPe"; "water"]; ["old"]])).
  - discriminate.
  - reflexivity.
Defined.

Lemma include_methods_appends_unshown_witness :
  ∃ (s' : State) (fresh : list Method),
    let new := [["ReCiPe"; "water"]; ["IPCC"; "GWP100"]; ["ReCiPe"; "water"]] in
    let s := Sample.methods_idle in
    CSMethodsModel.include_methods new s = (inr tt, s')
    ∧ fresh = List.filter
                (λ m, negb (CSMethodsModel.shows_method (CSMethodsModel.methods s) m)) new
    ∧ (∀ m, m ∈ fresh ↔ m ∈ new ∧ VMethod m ∉ CSMethodsModel.methods s)
    ∧ CSMethodsModel.methods s' = CSMethodsModel.methods s ++ (VMethod <$> fresh)
    ∧ emitted s'
      = emitted s ++ match fresh with
                     | [] => []
                     | _ :: _ => [updated; calculation_setup_changed]
                     end
    ∧ (fresh = [] → s' = s).
Proof.
  apply (include_methods_appends_unshown Sample.methods_idle
           [["ReCiPe"; "water"]; ["IPCC"; "GWP100"]; ["ReCiPe"; "water"]]).
  repeat constructor; by eexists.
Defined.

Lemma include_methods_unknown_method_witness :
  CSMethodsModel.include_methods [["IPCC"; "GWP100"]; ["gone"]] Sample.methods_idle
  = (inl (KeyError "('gone',)"), Sample.methods_idle).
Proof.
  apply (include_methods_unknown_method Sample.methods_idle
           [["IPCC"; "GWP100"]; ["gone"]] [["IPCC"; "GWP100"]] ["gone"] []).
  - reflexivity.
  - repeat constructor; by eexists.
  - reflexivity.
Defined.

Lemma include_methods_twice_witness :
  ∃ s1 : State,
    CSMethodsModel.include_methods [["ReCiPe"; "water"]; ["IPCC"; "GWP100"]]
      Sample.methods_idle = (inr tt, s1)
    ∧ CSMethodsModel.include_methods [["ReCiPe"; "water"]; ["IPCC"; "GWP100"]] s1
      = (inr tt, s1).
Proof.
  apply (include_methods_twice Sample.methods_idle
           [["ReCiPe"; "water"]; ["IPCC"; "GWP100"]]).
  repeat constructor; by eexists.
Defined.

Lemma methods_delete_rows_drops_positions_witness :
  ∃ df' : DataFrame,
    let s := Sample.showing_methods in
    let df := Sample.three_methods in
    let rows := [2%Z; 0%Z] in
    CSMethodsModel.delete_rows rows s
    = (inr tt,
       set_emitted (emitted s ++ [updated; calculation_setup_changed])
         (set_dataframe (Some df') s))
    ∧ df' `sublist_of` df
    ∧ (∀ r, r ∈ df' ↔ ∃ k, df !! k = Some r ∧ Z.of_nat k ∉ rows)
    ∧ (∀ i, rows = [Z.of_nat i] → df' = delete i df)
    ∧ (rows = [] → df' = df).
Proof.
  apply (methods_delete_rows_drops_positions Sample.showing_methods
           Sample.three_methods [2%Z; 0%Z]).
  - reflexivity.
  - repeat constructor; simpl; lia.
Defined.

Lemma methods_delete_rows_unknown_row_witness :
  CSMethodsModel.delete_rows [1%Z; 3%Z] Sample.showing_methods
  = (inl (KeyError "not found in axis"), Sample.showing_methods).
Proof.
  apply (methods_delete_rows_unknown_row Sample.showing_methods
           Sample.three_methods [1%Z; 3%Z] 3%Z).
  - reflexivity.
  - do 2 constructor.
  - simpl. lia.
Defined.


Lemma load_renews_subscriptions_witness :
  ∃ s' : State,
    CSActivityModel.load Sample.names "CS4" Sample.activities_complete = (inr tt, s')
    ∧ _activities s'
      = CSActivityModel.resolving (activity_controller Sample.activities_complete)
          (concat (inv Sample.complete_setup))
    ∧ connections s' = _activities s'.
Proof.
  apply (load_renews_subscriptions Sample.names
           Sample.activities_complete "CS4" Sample.complete_setup).
  - reflexivity.
  - discriminate.
  - reflexivity.
Defined.

Lemma sync_again_adds_subscriptions_witness :
  let s := Sample.tracking_a in
  let fus := match cs_controller s !! "CS1" with
             | Some cs => inv cs
             | None => []
             end in
  let tracked := CSActivityModel.resolving (activity_controller s) (concat fus) in
  ∃ s1 s2 : State,
    CSActivityModel.sync Sample.names s = (inr tt, s1)
    ∧ CSActivityModel.sync Sample.names s1 = (inr tt, s2)
    ∧ _dataframe s2 = _dataframe s1
    ∧ _activities s1 = _activities s ++ tracked
    ∧ connections s1 = connections s ++ tracked
    ∧ _activities s2 = _activities s ++ tracked ++ tracked
    ∧ connections s2 = connections s ++ tracked ++ tracked
    ∧ (∀ k, k ∈ tracked
            ↔ ∃ v, (k, v) ∈ concat fus
                   ∧ is_Some (CSActivityModel.resolve (activity_controller s) k)).
Proof.
  apply (sync_again_adds_subscriptions Sample.names Sample.tracking_a "CS1").
  - reflexivity.
  - discriminate.
Defined.

Lemma include_activities_empty_unit_witness :
  ∃ s' : State,
    CSActivityModel.include_activities Sample.names
      [[(("db", "e"), 1%float)]; []] Sample.showing_a
    = (inl (ValueError "not enough values to unpack (expected 2, got 0)"), s')
    ∧ _dataframe s' = Some [Sample.row_a]
    ∧ emitted s' = emitted Sample.showing_a.
Proof.
  apply (include_activities_empty_unit Sample.names Sample.showing_a [Sample.row_a]
           [[(("db", "e"), 1%float)]; []]).
  - reflexivity.
  - do 2 constructor.
Defined.


Lemma activities_delete_row_of_missing_activity_witness :
  CSActivityModel.delete_rows [Z.of_nat 0] Sample.orphaned_a
  = (inl DoesNotExist, Sample.orphaned_a).
Proof.
  apply (activities_delete_row_of_missing_activity Sample.orphaned_a [Sample.row_a]
           0 Sample.row_a ("db", "a")); reflexivity.
Defined.

Lemma relocateRow_source_out_of_range_witness :
  CSGenericModel.relocateRow 3 0 (Sample.showing [Sample.row 0; Sample.row 1; Sample.row 2])
  = (inl IndexError, Sample.showing [Sample.row 0; Sample.row 1; Sample.row 2]).
Proof.
  apply (relocateRow_source_out_of_range
           (Sample.showing [Sample.row 0; Sample.row 1; Sample.row 2])
           [Sample.row 0; Sample.row 1; Sample.row 2] 3 0).
  - reflexivity.
  - simpl. lia.
Defined.

Lemma relocateRow_to_the_end_witness :
  let s := Sample.showing [Sample.row 0; Sample.row 1; Sample.row 2] in
  CSGenericModel.relocateRow (Z.of_nat 0) (Z.of_nat 3) s
  = (inr tt,
     set_emitted (emitted s ++ [updated; calculation_setup_changed])
       (set_dataframe (Some [Sample.row 1; Sample.row 2; Sample.row 0]) s)).
Proof.
  apply (relocateRow_to_the_end
           (Sample.showing [Sample.row 0; Sample.row 1; Sample.row 2])
           [Sample.row 0; Sample.row 1; Sample.row 2] 0 (Sample.row 0)); reflexivity.
Defined.

Lemma relocateRow_one_down_is_noop_witness :
  let s := Sample.showing [Sample.row 0; Sample.row 1; Sample.row 2] in
  CSGenericModel.relocateRow (Z.of_nat 1) (Z.of_nat 1 + 1) s
  = (inr tt, set_emitted (emitted s ++ [updated; calculation_setup_changed]) s).
Proof.
  apply (relocateRow_one_down_is_noop
           (Sample.showing [Sample.row 0; Sample.row 1; Sample.row 2])
           [Sample.row 0; Sample.row 1; Sample.row 2] 1 (Sample.row 1)); reflexivity.
Defined.

Lemma relocateRow_undo_witness :
  let s := Sample.showing [Sample.row 0; Sample.row 1; Sample.row 2] in
  (CSGenericModel.relocateRow (Z.of_nat 0) (Z.of_nat 2);;
   CSGenericModel.relocateRow (Z.of_nat 2 - 1) (Z.of_nat 0)) s
  = (inr tt,
     set_emitted (emitted s ++ [updated; calculation_setup_changed;
                                updated; calculation_setup_changed]) s).
Proof.
  apply (relocateRow_undo
           (Sample.showing [Sample.row 0; Sample.row 1; Sample.row 2])
           [Sample.row 0; Sample.row 1; Sample.row 2] 0 2).
  - reflexivity.
  - simpl. lia.
  - simpl. lia.
  - lia.
Defined.

Lemma relocateRow_negative_source_duplicates_witness :
  let s := Sample.showing [Sample.row 0; Sample.row 1; Sample.row 2] in
  CSGenericModel.relocateRow (-1) (Z.of_nat 0) s
  = (inl (KeyError "not found in axis"),
     set_dataframe
       (Some [Sample.row 2; Sample.row 0; Sample.row 1; Sample.row 2]) s).
Proof.
  apply (relocateRow_negative_source_duplicates
           (Sample.showing [Sample.row 0; Sample.row 1; Sample.row 2])
           [Sample.row 0; Sample.row 1; Sample.row 2] (-1) 0 (Sample.row 2)).
  - reflexivity.
  - simpl. lia.
  - simpl. lia.
  - reflexivity.
Defined.

Lemma sample_data_keys_distinct : NoDup Sample.new_amount.*1.
Proof.
  repeat constructor; rewrite ?elem_of_cons, ?elem_of_nil; intuition discriminate.
Defined.

Lemma onTrigger_assigns_and_saves_witness :
  let after := ExchangeModify.onTrigger Sample.new_amount Sample.exchange in
  (∀ k v, (k, v) ∈ Sample.new_amount → ExchangeModify.fields after !! k = Some v)
  ∧ (∀ k, k ∉ Sample.new_amount.*1 →
          ExchangeModify.fields after !! k = ExchangeModify.fields Sample.exchange !! k)
  ∧ ExchangeModify.saved after = ExchangeModify.fields after.
Proof.
  apply (onTrigger_assigns_and_saves Sample.new_amount Sample.exchange).
  apply sample_data_keys_distinct.
Defined.

Lemma onTrigger_twice_witness :
  ExchangeModify.onTrigger Sample.new_amount
    (ExchangeModify.onTrigger Sample.new_amount Sample.exchange)
  = ExchangeModify.onTrigger Sample.new_amount Sample.exchange.
Proof.
  apply (onTrigger_twice Sample.new_amount Sample.exchange).
  apply sample_data_keys_distinct.
Defined.

Lemma get_tab_name_unique_witness :
  (ABTab.get_tab_name Sample.tabs 2).1 = Some "Welcome"
  ↔ ("Welcome", 2) ∈ Sample.tabs
    ∧ ∀ other, (other, 2) ∈ Sample.tabs → other = "Welcome".
Proof.
  apply (get_tab_name_unique Sample.tabs 2 "Welcome").
  repeat constructor; rewrite ?elem_of_cons, ?elem_of_nil; intuition discriminate.
Defined.

Lemma populate_enabled_actions_carry_project_names_witness :
  let actions := ProjectsMenu.populate false reverse Sample.projects [] in
  let made (action : ProjectsMenu.QAction) (proj : ProjectsMenu.Project) :=
    ProjectsMenu.isEnabled action = negb (ProjectsMenu.bw_25 proj) || false
    ∧ (ProjectsMenu.isEnabled action = true →
       ProjectsMenu.text action = ProjectsMenu.name proj)
    ∧ (ProjectsMenu.isEnabled action = false →
       ProjectsMenu.text action = "[BW25] " +:+ ProjectsMenu.name proj
       ∧ ProjectsMenu.bw_25 proj = true ∧ false = false) in
  Forall2 made actions (reverse Sample.projects)
  ∧ length actions = length Sample.projects
  ∧ (∀ action, action ∈ actions → ∃ proj, proj ∈ Sample.projects ∧ made action proj)
  ∧ (∀ proj, proj ∈ Sample.projects → ∃ action, action ∈ actions ∧ made action proj).
Proof.
  apply (populate_enabled_actions_carry_project_names false reverse Sample.projects []).
  intros ps. apply reverse_Permutation.
Defined.

(** On the sample projects the BW25 project is marked and disabled. *)
Example populate_sample :
  ProjectsMenu.populate false (λ ps, ps) Sample.projects []
  = [ProjectsMenu.mkQAction "default" true; ProjectsMenu.mkQAction "[BW25] new" false].
Proof. reflexivity. Qed.
